(** * JumpDiff: the jump-diffusion integrator [jdprocess]

  A shallow embedding of [src/JumpDiff/jdprocess.py] and the properties of
  its argument checks, its output length, its two integration schemes and
  the order in which it consumes the random-number stream.

  Layout:
  - the Python exceptions the routine can raise and the float64 interface;
  - Python values, with the dynamic tests the routine performs on them;
  - the numpy random generator as an interface, and the effect monad
    (generator state, effect log, exceptions);
  - [jdprocess] itself, statement by statement;
  - binary64 and a deterministic generator, to run the model;
  - the theorems, and their instances at concrete calls;
  - further properties of the routine, with their instances.

  What the model takes for granted:
  - assertions are enabled (the interpreter does not run with [-O]);
  - [time] and [delta_t] are Python numbers, as the signature annotates
    them; the arguments whose type the routine tests itself ([a], [b], [xi],
    [lamb], [init], [b_prime]) range over all the values of [pyval];
  - a callable passed as [a], [b] or [b_prime] is a total function from
    floats to floats that raises nothing;
  - memory is unbounded: [np.zeros] fails on a negative length only. *)

From Stdlib Require Import ZArith String Floats Lia.
From stdpp Require Import base list.

Local Open Scope string_scope.
Local Open Scope list_scope.

(** ** Exceptions and results *)

Inductive exn :=
| AssertionError (msg : string)
| IndexError
| ValueError
| OverflowError
| TypeError.

Inductive result (A : Type) :=
| Ok (a : A)
| Raise (e : exn).
Arguments Ok {A} a.
Arguments Raise {A} e.

(** ** Float arithmetic

  Python's [float] and numpy's [float64] are IEEE-754 binary64.  The routine
  only combines them with the operations below, so the model is written
  against this interface; [binary64] further down implements it with the
  kernel's primitive floats.

  [of_Z] is [float(z)] and [ztruediv] is [z1 / z2] on two Python ints.
  Python raises [OverflowError] where the integer is beyond the float64 range;
  integer arguments are taken inside that range here.  [ftrunc] is [int(x)],
  which raises on infinities and NaN. *)

Class Float64 := {
  F : Type;
  fzero : F;
  fhalf : F;
  fadd : F -> F -> F;
  fsub : F -> F -> F;
  fmul : F -> F -> F;
  fdiv : F -> F -> F;
  fsqrt : F -> F;
  fgt0 : F -> bool;
  of_Z : Z -> F;
  ztruediv : Z -> Z -> F;
  ftrunc : F -> result Z
}.

Declare Scope pyfloat_scope.
Delimit Scope pyfloat_scope with py.
Infix "+" := fadd : pyfloat_scope.
Infix "-" := fsub : pyfloat_scope.
Infix "*" := fmul : pyfloat_scope.

(** ** Python values *)

Section Values.
Context {fl : Float64}.

(** A Python number whose type is exactly [int] or exactly [float]. *)
Inductive pynum :=
| Int (z : Z)
| Float (f : F).

(** The values a caller can pass for the dynamically checked arguments.
    [PyObject eq_none call] is an instance of a user class: [eq_none] is
    what its [__eq__] answers against [None] and [call] its [__call__], if
    it has one.  A function object ([def] or [lambda]) compares by identity,
    so it is never [== None]. *)
Inductive pyval :=
| PyNone
| PyBool (b : bool)
| PyNum (n : pynum)
| PyStr (s : string)
| NpFloat64 (f : F)
| NpInt64 (z : Z)
| PyFunction (f : F -> F)
| PyObject (eq_none : bool) (call : option (F -> F)).

(** [callable(v)] *)
Definition callable (v : pyval) : bool :=
  match v with
  | PyFunction _ => true
  | PyObject _ (Some _) => true
  | _ => false
  end.

(** [v == None] *)
Definition eq_None (v : pyval) : bool :=
  match v with
  | PyNone => true
  | PyObject e _ => e
  | _ => false
  end.

(** [v is None] *)
Definition is_None (v : pyval) : bool :=
  match v with
  | PyNone => true
  | _ => false
  end.

(** [type(v) == int or type(v) == float] *)
Definition type_int_or_float (v : pyval) : bool :=
  match v with
  | PyNum _ => true
  | _ => false
  end.

Definition to_float (n : pynum) : F :=
  match n with
  | Int z => of_Z z
  | Float f => f
  end.

(** [n > 0] *)
Definition num_gt0 (n : pynum) : bool :=
  match n with
  | Int z => (0 <? z)%Z
  | Float f => fgt0 f
  end.

(** [n / m], Python's true division.  Its only call site divides by
    [delta_t] after [delta_t > 0] has been asserted, so the
    [ZeroDivisionError] of a zero divisor is not represented. *)
Definition num_truediv (n m : pynum) : F :=
  match n, m with
  | Int a, Int b => ztruediv a b
  | _, _ => fdiv (to_float n) (to_float m)
  end.

(** [n * m]: the product of two ints is an int. *)
Definition num_mul (n m : pynum) : pynum :=
  match n, m with
  | Int a, Int b => Int (a * b)
  | _, _ => Float (to_float n * to_float m)%py
  end.

(** The function behind a callable value (the identity for the rest, which
    [py_call] below never reaches). *)
Definition fn (v : pyval) : F -> F :=
  match v with
  | PyFunction f => f
  | PyObject _ (Some f) => f
  | _ => fun x => x
  end.
End Values.

(** ** The random generator

  [numpy.random] is not part of the repository: it is an interface here.  A
  sampler first validates its parameter ([ValueError] on a bad scale or
  rate) and then takes its variates one after the other from the generator
  state. *)

Class Generator `{Float64} := {
  rng : Type;
  normal_ok : F -> bool;
  normal1 : F -> rng -> F * rng;
  poisson_ok : F -> bool;
  poisson1 : F -> rng -> Z * rng
}.

Section Model.
Context {fl : Float64} {rg : Generator}.

(** What a run does besides computing: the allocation of the path and the
    calls to the samplers, with their parameter and their [size] (absent
    for the scalar call of the jump amplitude). *)
Inductive event :=
| EvZeros (n : nat)
| EvNormal (scale : F) (size : option nat)
| EvPoisson (lam : F) (size : option nat).

Record world := World { gen : rng; log : list event }.

Definition emit (e : event) (g : rng) (w : world) : world :=
  {| gen := g; log := log w ++ [e] |}.

(** *** The effect monad: state passing with exceptions *)

Definition M (A : Type) : Type := world -> result A * world.

Definition ret {A} (a : A) : M A := fun w => (Ok a, w).

Definition raise {A} (e : exn) : M A := fun w => (Raise e, w).

Definition bind {A B} (m : M A) (k : A -> M B) : M B :=
  fun w =>
    match m w with
    | (Ok a, w1) => k a w1
    | (Raise e, w1) => (Raise e, w1)
    end.

Notation "x <- m ;; k" := (bind m (fun x => k))
  (at level 100, m at next level, right associativity).
Notation "m ;; k" := (bind m (fun _ => k))
  (at level 100, right associativity).

(** [assert cond, msg] *)
Definition py_assert (cond : bool) (msg : string) : M unit :=
  if cond then ret tt else raise (AssertionError msg).

(** [int(x)] *)
Definition py_int (x : F) : M Z :=
  fun w => (ftrunc x, w).

(** [v(x)] *)
Definition py_call (v : pyval) (x : F) : M F :=
  if callable v then ret (fn v x) else raise TypeError.

(** The Python number in a value known to be an [int] or a [float]. *)
Definition py_num (v : pyval) : M pynum :=
  match v with
  | PyNum n => ret n
  | _ => raise TypeError
  end.

(** *** numpy *)

(** [np.zeros(n)] *)
Definition np_zeros (n : Z) : M (list F) :=
  if (n <? 0)%Z then raise ValueError
  else fun w => (Ok (replicate (Z.to_nat n) fzero),
                 emit (EvZeros (Z.to_nat n)) (gen w) w).

(** [np.sqrt(n)] *)
Definition np_sqrt (n : pynum) : F := fsqrt (to_float n).

(** [l[i]] *)
Definition getitem {A} (l : list A) (i : nat) : M A :=
  match l !! i with
  | Some x => ret x
  | None => raise IndexError
  end.

(** [X[i] = v] *)
Definition setitem (X : list F) (i : nat) (v : F) : M (list F) :=
  if decide (i < length X) then ret (<[i:=v]> X) else raise IndexError.

(** [n] successive variates. *)
Fixpoint draws {A} (draw1 : rng -> A * rng) (n : nat) (g : rng)
  : list A * rng :=
  match n with
  | 0 => ([], g)
  | S n' =>
      let (x, g1) := draw1 g in
      let (xs, g2) := draws draw1 n' g1 in
      (x :: xs, g2)
  end.

(** [np.random.normal(loc = 0, scale = scale, size = n)] *)
Definition np_random_normal (scale : F) (n : nat) : M (list F) :=
  fun w =>
    if normal_ok scale then
      let (xs, g) := draws (normal1 scale) n (gen w) in
      (Ok xs, emit (EvNormal scale (Some n)) g w)
    else (Raise ValueError, w).

(** [np.random.normal(loc = 0, scale = scale)] *)
Definition np_random_normal1 (scale : F) : M F :=
  fun w =>
    if normal_ok scale then
      let (x, g) := normal1 scale (gen w) in
      (Ok x, emit (EvNormal scale None) g w)
    else (Raise ValueError, w).

(** [np.random.poisson(lam = lam, size = n)] *)
Definition np_random_poisson (lam : F) (n : nat) : M (list Z) :=
  fun w =>
    if poisson_ok lam then
      let (xs, g) := draws (poisson1 lam) n (gen w) in
      (Ok xs, emit (EvPoisson lam (Some n)) g w)
    else (Raise ValueError, w).

(** *** Loops *)

(** [range(lo, hi)] *)
Definition py_range (lo hi : nat) : list nat := seq lo (hi - lo).

(** [for i in idx: s = body(i, s)] *)
Fixpoint for_each {S} (idx : list nat) (body : nat -> S -> M S) (s : S)
  : M S :=
  match idx with
  | [] => ret s
  | i :: rest => s1 <- body i s ;; for_each rest body s1
  end.

(** *** The integrator *)

(** Lines 103-104 and 113-114:
    [if dJ[i] > 0.: X[i] += dJ[i] * np.random.normal(loc = 0, scale = np.sqrt(xi))] *)
Definition add_jump (xi : pyval) (dJ : list Z) (i : nat) (X : list F)
  : M (list F) :=
  j <- getitem dJ i ;;
  if (0 <? j)%Z then
    xi_i <- getitem X i ;;
    v <- py_num xi ;;
    z <- np_random_normal1 (np_sqrt v) ;;
    setitem X i (xi_i + of_Z j * z)%py
  else ret X.

(** Lines 102-104, one pass of the Euler loop. *)
Definition euler_step (delta_t : pynum) (a b xi : pyval)
    (dw : list F) (dJ : list Z) (i : nat) (X : list F) : M (list F) :=
  x <- getitem X (i - 1) ;;
  ax <- py_call a x ;;
  bx <- py_call b x ;;
  w <- getitem dw i ;;
  X <- setitem X i (x + ax * to_float delta_t + bx * w)%py ;;
  add_jump xi dJ i X.

(** Line 108: [dw_2 = (dw**2 - delta_t) * 0.5], the whole array at once
    (numpy evaluates a square as a product). *)
Definition milstein_terms (delta_t : pynum) (dw : list F) : list F :=
  map (fun w => ((w * w - to_float delta_t) * fhalf)%py) dw.

(** Lines 111-114, one pass of the Milstein loop. *)
Definition milstein_step (delta_t : pynum) (a b b_prime xi : pyval)
    (dw dw_2 : list F) (dJ : list Z) (i : nat) (X : list F) : M (list F) :=
  x <- getitem X (i - 1) ;;
  ax <- py_call a x ;;
  bx <- py_call b x ;;
  w <- getitem dw i ;;
  bx' <- py_call b x ;;
  bpx <- py_call b_prime x ;;
  c <- getitem dw_2 i ;;
  X <- setitem X i (x + ax * to_float delta_t + bx * w + bx' * bpx * c)%py ;;
  add_jump xi dJ i X.

(** Lines 85-90: the initial value. *)
Definition initial_value (delta_t : pynum) (init : pyval) (X : list F)
  : M (list F) :=
  if is_None init then
    x0 <- np_random_normal (np_sqrt delta_t) 1 ;;
    match x0 with
    | [v] => setitem X 0 v
    | _ => raise ValueError
    end
  else
    py_assert (type_int_or_float init) "'init' is not an int or float" ;;
    v <- py_num init ;;
    setitem X 0 (to_float v).

(** Lines 65-75: the checks at entry. *)
Definition entry_checks (time delta_t : pynum) (a b xi lamb : pyval)
    (solver : string) (b_prime : pyval) : M unit :=
  py_assert (num_gt0 time) "Total integration time must be positive" ;;
  py_assert (num_gt0 delta_t) "Time sampling must be positive" ;;
  (if solver =? "Milstein" then
     py_assert (eq_None b_prime)
       "Introduce b'(x) to use the Milstein solver" ;;
     py_assert (callable b_prime) "b'(x) must be a function"
   else ret tt) ;;
  py_assert (callable a) "drift a(x) must be a function" ;;
  py_assert (callable b) "diffusion b(x) must be a function" ;;
  py_assert (type_int_or_float lamb) "'lamb' is not an int or float" ;;
  py_assert (type_int_or_float xi) "'xi' is not an int or float".

(** Lines 99-116: the two loops, each behind its own test of [solver], and
    the return. *)
Definition integrate (delta_t : pynum) (a b xi : pyval) (solver : string)
    (b_prime : pyval) (length : nat) (dw : list F) (dJ : list Z)
    (X : list F) : M (list F) :=
  X <- (if solver =? "Euler" then
          for_each (py_range 1 length)
            (euler_step delta_t a b xi dw dJ) X
        else ret X) ;;
  X <- (if solver =? "Milstein" then
          let dw_2 := milstein_terms delta_t dw in
          for_each (py_range 1 length)
            (milstein_step delta_t a b b_prime xi dw dw_2 dJ) X
        else ret X) ;;
  ret X.

(** [jdprocess(time, delta_t, a, b, xi, lamb, init, solver, b_prime)] *)
Definition jdprocess (time delta_t : pynum) (a b xi lamb init : pyval)
    (solver : string) (b_prime : pyval) : M (list F) :=
  entry_checks time delta_t a b xi lamb solver b_prime ;;
  len <- py_int (num_truediv time delta_t) ;;
  X <- np_zeros len ;;
  let length := Z.to_nat len in
  X <- initial_value delta_t init X ;;
  dw <- np_random_normal (np_sqrt delta_t) length ;;
  l <- py_num lamb ;;
  dJ <- np_random_poisson (to_float (num_mul l delta_t)) length ;;
  integrate delta_t a b xi solver b_prime length dw dJ X.

(** *** Vocabulary of the statements

    Read off the code above: what the entry checks test, and what the
    sampling phase hands to the loops. *)

(** The conjunction of the assertions of lines 65-75. *)
Definition passes_checks (time delta_t : pynum) (a b xi lamb : pyval)
    (solver : string) (b_prime : pyval) : bool :=
  num_gt0 time && num_gt0 delta_t
  && (if solver =? "Milstein" then eq_None b_prime && callable b_prime
      else true)
  && callable a && callable b
  && type_int_or_float lamb && type_int_or_float xi.

(** The generator once the initial value is set: one variate further when
    [init] is absent (line 86), untouched otherwise. *)
Definition after_initial (delta_t : pynum) (init : pyval) (g : rng) : rng :=
  if is_None init then (normal1 (np_sqrt delta_t) g).2 else g.

(** The initial condition: the given [init] or the variate of line 86. *)
Definition initial_condition (delta_t : pynum) (init : pyval) (g : rng)
  : F :=
  match init with
  | PyNum n => to_float n
  | _ => (normal1 (np_sqrt delta_t) g).1
  end.

(** The array [dw] of line 93, for a run started with generator [g]. *)
Definition wiener_increments (delta_t : pynum) (init : pyval) (n : nat)
    (g : rng) : list F :=
  (draws (normal1 (np_sqrt delta_t)) n (after_initial delta_t init g)).1.

(** The generator between lines 93 and 96. *)
Definition after_wiener (delta_t : pynum) (init : pyval) (n : nat)
    (g : rng) : rng :=
  (draws (normal1 (np_sqrt delta_t)) n (after_initial delta_t init g)).2.

(** The rate [lamb * delta_t] of line 96, as numpy receives it. *)
Definition jump_rate (lamb delta_t : pynum) : F :=
  to_float (num_mul lamb delta_t).

(** The array [dJ] of line 96. *)
Definition jump_counts (delta_t lamb : pynum) (init : pyval) (n : nat)
    (g : rng) : list Z :=
  (draws (poisson1 (jump_rate lamb delta_t)) n
     (after_wiener delta_t init n g)).1.

(** The generator when the loops start. *)
Definition after_jumps (delta_t lamb : pynum) (init : pyval) (n : nat)
    (g : rng) : rng :=
  (draws (poisson1 (jump_rate lamb delta_t)) n
     (after_wiener delta_t init n g)).2.

(** The sampler calls of the sampling phase, lines 85-96. *)
Definition sampling_events (delta_t lamb : pynum) (init : pyval) (n : nat)
  : list event :=
  (if is_None init then [EvNormal (np_sqrt delta_t) (Some 1)] else [])
  ++ [EvNormal (np_sqrt delta_t) (Some n);
      EvPoisson (jump_rate lamb delta_t) (Some n)].

(** The sampler calls of a loop over the indices [s, s+1, ..., s+n-1]: one
    scalar call at each index whose jump count is positive. *)
Definition jump_events (xi : pynum) (J : list Z) (s n : nat) : list event :=
  flat_map
    (fun i =>
       match J !! i with
       | Some j => if (0 <? j)%Z then [EvNormal (np_sqrt xi) None] else []
       | None => []
       end)
    (seq s n).

(** One step of a scheme, from the value [base] of the diffusion update:
    with a positive jump count [j] the amplitude is the next variate of the
    generator; otherwise the generator is left as it is. *)
Definition jump_rel (xi : pynum) (j : Z) (base y : F) (g g' : rng) : Prop :=
  if (0 <? j)%Z then
    y = (base + of_Z j * (normal1 (np_sqrt xi) g).1)%py
    /\ g' = (normal1 (np_sqrt xi) g).2
  else y = base /\ g' = g.

(** The diffusion update of line 102. *)
Definition euler_update (delta_t : pynum) (a b : pyval) (x w : F) : F :=
  (x + fn a x * to_float delta_t + fn b x * w)%py.

(** The corrective term of line 108 at one index. *)
Definition milstein_term (delta_t : pynum) (w : F) : F :=
  ((w * w - to_float delta_t) * fhalf)%py.

(** The diffusion update of lines 111-112. *)
Definition milstein_update (delta_t : pynum) (a b b_prime : pyval)
    (x w c : F) : F :=
  (x + fn a x * to_float delta_t + fn b x * w
   + fn b x * fn b_prime x * c)%py.

(** An [init] the routine accepts: absent, or an [int] or a [float]. *)
Definition init_ok (init : pyval) : bool :=
  is_None init || type_int_or_float init.

(** The path and the world when the loops start: index 0 holds the initial
    condition, the other entries are the zeros of [np.zeros]. *)
Definition initial_path (delta_t : pynum) (init : pyval) (n : nat) (g : rng)
  : list F :=
  <[0 := initial_condition delta_t init g]> (replicate n fzero).

Definition sampled_world (delta_t lamb : pynum) (init : pyval) (n : nat)
    (w : world) : world :=
  {| gen := after_jumps delta_t lamb init n (gen w);
     log := log w ++ [EvZeros n] ++ sampling_events delta_t lamb init n |}.


(** What one pass of a loop amounts to, from the value [base] of its
    diffusion update and the jump count [j] of its index. *)
Definition jump_outcome (xi : pynum) (j : Z) (base : F) (i : nat)
    (X : list F) : M (list F) :=
  fun w =>
    if (0 <? j)%Z then
      if normal_ok (np_sqrt xi) then
        let (z, g) := normal1 (np_sqrt xi) (gen w) in
        (Ok (<[i := (base + of_Z j * z)%py]> X),
         emit (EvNormal (np_sqrt xi) None) g w)
      else (Raise ValueError, w)
    else (Ok (<[i := base]> X), w).

(** *** Reference paths

    What the loops compute when no jump occurs, as plain recursion on the
    increments: each value comes from the one before it. *)

Fixpoint iterate_updates (step : F -> F -> F) (x : F) (ws : list F)
  : list F :=
  match ws with
  | [] => []
  | w :: ws' =>
      let y := step x w in
      y :: iterate_updates step y ws'
  end.

(** The Euler-Maruyama path from [x0] over the increments [ws]. *)
Definition euler_reference (delta_t : pynum) (a b : pyval) (x0 : F)
    (ws : list F) : list F :=
  x0 :: iterate_updates (euler_update delta_t a b) x0 ws.

(** The Milstein path from [x0] over the increments [ws]. *)
Definition milstein_reference (delta_t : pynum) (a b b_prime : pyval)
    (x0 : F) (ws : list F) : list F :=
  x0 :: iterate_updates
          (fun x w =>
             milstein_update delta_t a b b_prime x w (milstein_term delta_t w))
          x0 ws.

(** The generator after a loop over the indices [idx]: one variate further
    at each index whose jump count is positive. *)
Fixpoint jump_generator (xi : pynum) (J : list Z) (idx : list nat) (g : rng)
  : rng :=
  match idx with
  | [] => g
  | i :: rest =>
      jump_generator xi J rest
        (match J !! i with
         | Some j => if (0 <? j)%Z then (normal1 (np_sqrt xi) g).2 else g
         | None => g
         end)
  end.

End Model.

Notation "x <- m ;; k" := (bind m (fun x => k))
  (at level 100, m at next level, right associativity).
Notation "m ;; k" := (bind m (fun _ => k))
  (at level 100, right associativity).

(** ** Running the model: binary64 and a deterministic generator *)

Module Binary64.

(** [float(z)], rounded to nearest even. *)
Definition float_of_Z (z : Z) : float :=
  SF2Prim (binary_normalize prec emax z 0 false).

(** [a / b] on ints: the exact quotient rounded once, to nearest even.  A
    quotient that is an integer is converted as such; otherwise it is cut
    after 64 significant bits and a rest that is not zero is kept as a
    sticky bit, which leaves the rounding to 53 bits unchanged. *)
Definition float_of_quotient (a b : Z) : float :=
  let neg := xorb (a <? 0)%Z (b <? 0)%Z in
  let a' := Z.abs a in
  let b' := Z.abs b in
  if (b' =? 0)%Z then PrimFloat.nan
  else if (a' mod b' =? 0)%Z then
    let q := (a' / b')%Z in
    SF2Prim (binary_normalize prec emax (if neg then (- q)%Z else q) 0 neg)
  else
    let k := (64 + Z.log2 b')%Z in
    let q := (a' * 2 ^ k / b')%Z in
    let m := if (a' * 2 ^ k mod b' =? 0)%Z then (2 * q)%Z
             else (2 * q + 1)%Z in
    SF2Prim (binary_normalize prec emax (if neg then (- m)%Z else m)
               (- (k + 1))%Z neg).

(** [math.isfinite(x)], and the same on a Python number. *)
Definition isfinite (x : float) : bool :=
  match Prim2SF x with
  | S754_zero _ | S754_finite _ _ _ => true
  | S754_infinity _ | S754_nan => false
  end.

(** [int(x)]: truncation toward zero. *)
Definition trunc (x : float) : result Z :=
  match Prim2SF x with
  | S754_zero _ => Ok 0%Z
  | S754_infinity _ => Raise OverflowError
  | S754_nan => Raise ValueError
  | S754_finite s m e =>
      let v := if (0 <=? e)%Z then (Z.pos m * 2 ^ e)%Z
               else (Z.pos m / 2 ^ (- e))%Z in
      Ok (if s then (- v)%Z else v)
  end.

#[export] Instance binary64 : Float64 := {
    F := float;
    fzero := 0%float;
    fhalf := 0.5%float;
    fadd := PrimFloat.add;
    fsub := PrimFloat.sub;
    fmul := PrimFloat.mul;
    fdiv := PrimFloat.div;
    fsqrt := PrimFloat.sqrt;
    fgt0 := fun x => PrimFloat.ltb 0 x;
    of_Z := float_of_Z;
    ztruediv := float_of_quotient;
    ftrunc := trunc
}.

(** A stand-in for numpy's generator: the state counts the variates taken
    so far; the [k]-th standard normal variate is [(k mod 5 - 2) / 2] and
    the [k]-th Poisson variate of a positive rate is [k mod 3].  numpy
    rejects a negative scale and a negative or NaN rate. *)
#[export] Instance counter : Generator := {
    rng := nat;
    normal_ok := fun scale => negb (PrimFloat.ltb scale 0);
    normal1 := fun scale k =>
      (PrimFloat.mul scale
         (PrimFloat.mul (float_of_Z (Z.of_nat (k mod 5) - 2)) 0.5), S k);
    poisson_ok := fun lam => PrimFloat.leb 0 lam;
    poisson1 := fun lam k =>
      (if PrimFloat.ltb 0 lam then Z.of_nat (k mod 3) else 0%Z, S k)
}.

Definition num_finite (n : pynum) : bool :=
  match n with
  | Int _ => true
  | Float f => isfinite f
  end.

Definition start : world := {| gen := 0; log := [] |}.

(** A time step of 1/4, whose square root is exact. *)
Definition quarter : pynum := Float 0.25%float.

(** [lambda x: x] as a diffusion, with its derivative [lambda x: 1] carried
    by an object that answers [True] to [== None]. *)
Definition linear_diffusion : pyval := PyFunction (fun x => x).
Definition unit_derivative : pyval := PyObject true (Some (fun _ => 1%float)).

(** numpy scalars, as [np.float64(0.5)] and [np.float64(0.0)]. *)
Definition np_half : pyval := NpFloat64 0.5%float.
Definition np_zero : pyval := NpFloat64 0%float.

(** What the sample calls below return. *)
Definition euler_path : list F := [0; 0.75; 0.375; 1.4375]%float.
Definition milstein_path : list F :=
  [1; 1.15625; 0.43359375; 1.2845458984375]%float.
Definition loop_world : world :=
  {| gen := 10;
     log := [EvZeros 4; EvNormal 0.5%float (Some 4);
             EvPoisson 0.5%float (Some 4); EvNormal 1%float None;
             EvNormal 1%float None] |}.

(** The Euler path of the call that [milstein_path] is the Milstein path
    of, and noise arrays that differ at index 0 only. *)
Definition euler_linear_path : list F := [1; 1.25; 0.625; 1.46875]%float.
Definition noise : list F := [9; 0.5; -0.5]%float.
Definition noise' : list F := [0; 0.5; -0.5]%float.
Definition counts : list Z := [7; 0; 1]%Z.
Definition counts' : list Z := [0; 0; 1]%Z.
Definition unit_path : list F := [1; 0; 0]%float.

(** Noise arrays that agree with [noise] and [counts] on their first two
    entries, and what the Euler loop makes of each from [unit_path]. *)
Definition noise_late : list F := [9; 0.5; 0.25]%float.
Definition counts_late : list Z := [7; 0; 0]%Z.
Definition jumped_path : list F := [1; 1; -1]%float.
Definition jumped_world : world :=
  {| gen := 1; log := [EvNormal 1%float None] |}.
Definition quiet_path : list F := [1; 1; 0.75]%float.

(** The number [1.0], as a time and as an initial value. *)
Definition float_one : pynum := Float 1%float.
Definition init_one : pyval := PyNum float_one.

(** [lambda x: -2*x] and [lambda x: 1] of the docstring, and a derivative. *)
Definition ou_drift : pyval := PyFunction (fun x => PrimFloat.mul (-2) x).
Definition unit_diffusion : pyval := PyFunction (fun _ => 1%float).
Definition zero_derivative : pyval := PyFunction (fun _ => 0%float).

End Binary64.

(** ** Properties *)

Section Properties.
Context {fl : Float64} {rg : Generator}.

Implicit Types (w : world) (X : list F) (e : exn).

(** *** The monad *)

Lemma bind_ok {A B} (m : M A) (k : A -> M B) w a w1 :
  m w = (Ok a, w1) -> bind m k w = k a w1.
Proof. intros E. unfold bind. now rewrite E. Qed.

Lemma bind_raise {A B} (m : M A) (k : A -> M B) w e w1 :
  m w = (Raise e, w1) -> bind m k w = (Raise e, w1).
Proof. intros E. unfold bind. now rewrite E. Qed.

Lemma bind_inv_ok {A B} (m : M A) (k : A -> M B) w b w' :
  bind m k w = (Ok b, w') ->
  exists a w1, m w = (Ok a, w1) /\ k a w1 = (Ok b, w').
Proof.
  unfold bind. destruct (m w) as [[a|e] w1]; intros E.
  - now exists a, w1.
  - discriminate.
Qed.

Lemma bind_ret {A B} (a : A) (k : A -> M B) w : bind (ret a) k w = k a w.
Proof. reflexivity. Qed.

(** Splits a successful sequence into its first statement and the rest. *)
Ltac inv_bind E a w1 Ea :=
  apply bind_inv_ok in E; destruct E as (a & w1 & Ea & E).

(** Runs the first statement of a sequence, given what it returns. *)
Local Tactic Notation "run" uconstr(lem) :=
  rewrite (bind_ok _ _ _ _ _ lem).
Local Tactic Notation "run_in" hyp(E) uconstr(lem) :=
  rewrite (bind_ok _ _ _ _ _ lem) in E.

(** *** The checks at entry *)

Lemma py_assert_true_bind {B} msg (k : unit -> M B) w :
  bind (py_assert true msg) k w = k tt w.
Proof. reflexivity. Qed.

(** The checks neither draw nor allocate: they return in the world they were
    started in, or fail there with an assertion failure. *)
Lemma entry_checks_spec time delta_t a b xi lamb solver b_prime w :
  if passes_checks time delta_t a b xi lamb solver b_prime
  then entry_checks time delta_t a b xi lamb solver b_prime w = (Ok tt, w)
  else exists msg,
      entry_checks time delta_t a b xi lamb solver b_prime w
      = (Raise (AssertionError msg), w).
Proof.
  unfold passes_checks, entry_checks.
  destruct (num_gt0 time); [|cbn; eauto].
  destruct (num_gt0 delta_t); [|cbn; eauto].
  destruct (solver =? "Milstein").
  - destruct (eq_None b_prime); [|cbn; eauto].
    destruct (callable b_prime); [|cbn; eauto].
    destruct (callable a); [|cbn; eauto].
    destruct (callable b); [|cbn; eauto].
    destruct (type_int_or_float lamb); [|cbn; eauto].
    destruct (type_int_or_float xi); cbn; eauto.
  - destruct (callable a); [|cbn; eauto].
    destruct (callable b); [|cbn; eauto].
    destruct (type_int_or_float lamb); [|cbn; eauto].
    destruct (type_int_or_float xi); cbn; eauto.
Qed.

Lemma entry_checks_pass time delta_t a b xi lamb solver b_prime w :
  passes_checks time delta_t a b xi lamb solver b_prime = true ->
  entry_checks time delta_t a b xi lamb solver b_prime w = (Ok tt, w).
Proof.
  intros P.
  pose proof (entry_checks_spec time delta_t a b xi lamb solver b_prime w)
    as S.
  now rewrite P in S.
Qed.

Lemma entry_checks_fail time delta_t a b xi lamb solver b_prime w :
  passes_checks time delta_t a b xi lamb solver b_prime = false ->
  exists msg,
    entry_checks time delta_t a b xi lamb solver b_prime w
    = (Raise (AssertionError msg), w).
Proof.
  intros P.
  pose proof (entry_checks_spec time delta_t a b xi lamb solver b_prime w)
    as S.
  now rewrite P in S.
Qed.

(** A call whose checks fail stops there: an assertion failure, the
    generator untouched and nothing logged. *)
Lemma jdprocess_rejected time delta_t a b xi lamb init solver b_prime w :
  passes_checks time delta_t a b xi lamb solver b_prime = false ->
  exists msg,
    jdprocess time delta_t a b xi lamb init solver b_prime w
    = (Raise (AssertionError msg), w).
Proof.
  intros P.
  destruct (entry_checks_fail _ _ _ _ _ _ _ _ w P) as [msg E].
  exists msg. unfold jdprocess. now apply bind_raise.
Qed.

(** A call that returns has passed the checks. *)
Lemma jdprocess_ok_checks time delta_t a b xi lamb init solver b_prime
    w X w' :
  jdprocess time delta_t a b xi lamb init solver b_prime w = (Ok X, w') ->
  passes_checks time delta_t a b xi lamb solver b_prime = true.
Proof.
  intros E.
  destruct (passes_checks time delta_t a b xi lamb solver b_prime) eqn:P;
    [reflexivity|].
  destruct (jdprocess_rejected _ _ _ _ _ _ init _ _ w P) as [msg R].
  congruence.
Qed.

(** C1, as amended. With [solver = 'Milstein'] and a [b_prime] for which
    [b_prime == None] is False (every function defined with [def] or
    [lambda] is such a value), the first Milstein check fails: whatever the
    other arguments, the checks do not pass and the call ends in an assertion
    failure raised at entry, with the generator untouched and nothing
    allocated, so that the Milstein loop is never reached.  When [time] and
    [delta_t] are positive the failure is that of the check
    [b_prime == None] itself.  (The two checks are not contradictory for
    every callable: an object that is callable and whose [__eq__] answers
    True to [None] passes both.) *)
Theorem milstein_with_function_rejected
    time delta_t a b xi lamb init b_prime w :
  eq_None b_prime = false ->
  passes_checks time delta_t a b xi lamb "Milstein" b_prime = false
  /\ exists msg,
      jdprocess time delta_t a b xi lamb init "Milstein" b_prime w
      = (Raise (AssertionError msg), w)
      /\ (num_gt0 time = true -> num_gt0 delta_t = true ->
          msg = "Introduce b'(x) to use the Milstein solver").
Proof.
  intros N.
  assert (passes_checks time delta_t a b xi lamb "Milstein" b_prime = false)
    as P.
  { unfold passes_checks. rewrite N.
    destruct (num_gt0 time), (num_gt0 delta_t); reflexivity. }
  split; [exact P|].
  destruct (jdprocess_rejected _ _ _ _ _ _ init _ _ w P) as [msg R].
  exists msg. split; [exact R|].
  intros T D. unfold jdprocess, entry_checks in R.
  rewrite T, D, N in R. cbn in R. congruence.
Qed.

(** C4. A call that violates one of the preconditions checked at entry
    (a [time] that is not positive, such as -1; a [delta_t] that is not
    positive, such as 0; an [a] or a [b] that is not callable; the Milstein
    solver with [b_prime = None]) raises an assertion failure and nothing
    else happens: no array has been allocated, no variate drawn, and no
    path is returned. *)
Theorem precondition_violation_aborts
    time delta_t a b xi lamb init solver b_prime w :
  num_gt0 time = false \/ num_gt0 delta_t = false
  \/ callable a = false \/ callable b = false
  \/ (solver = "Milstein" /\ b_prime = PyNone) ->
  exists msg,
    jdprocess time delta_t a b xi lamb init solver b_prime w
    = (Raise (AssertionError msg), w).
Proof.
  intros V. apply jdprocess_rejected. unfold passes_checks.
  destruct V as [-> | [-> | [-> | [-> | [-> ->]]]]]; cbn;
    rewrite ?andb_false_r; reflexivity.
Qed.


(** *** Samplers and array accesses *)

Lemma draws_length {A} (draw1 : rng -> A * rng) n g :
  length (draws draw1 n g).1 = n.
Proof.
  revert g. induction n as [|n IH]; intros g; cbn; [reflexivity|].
  destruct (draw1 g) as [x g1]. specialize (IH g1).
  destruct (draws draw1 n g1) as [xs g2]. cbn in *. now rewrite IH.
Qed.

Lemma draws_one {A} (draw1 : rng -> A * rng) g :
  draws draw1 1 g = ([(draw1 g).1], (draw1 g).2).
Proof. cbn. now destruct (draw1 g). Qed.

Lemma np_random_normal_ok scale n w :
  normal_ok scale = true ->
  np_random_normal scale n w
  = (Ok (draws (normal1 scale) n (gen w)).1,
     emit (EvNormal scale (Some n)) (draws (normal1 scale) n (gen w)).2 w).
Proof.
  intros V. unfold np_random_normal. rewrite V.
  now destruct (draws (normal1 scale) n (gen w)).
Qed.

Lemma np_random_normal_inv scale n w xs w' :
  np_random_normal scale n w = (Ok xs, w') -> normal_ok scale = true.
Proof.
  unfold np_random_normal. destruct (normal_ok scale); [reflexivity|].
  discriminate.
Qed.

Lemma np_random_poisson_ok lam n w :
  poisson_ok lam = true ->
  np_random_poisson lam n w
  = (Ok (draws (poisson1 lam) n (gen w)).1,
     emit (EvPoisson lam (Some n)) (draws (poisson1 lam) n (gen w)).2 w).
Proof.
  intros V. unfold np_random_poisson. rewrite V.
  now destruct (draws (poisson1 lam) n (gen w)).
Qed.

Lemma np_random_poisson_inv lam n w xs w' :
  np_random_poisson lam n w = (Ok xs, w') -> poisson_ok lam = true.
Proof.
  unfold np_random_poisson. destruct (poisson_ok lam); [reflexivity|].
  discriminate.
Qed.

Lemma getitem_some {A} (l : list A) i x w :
  l !! i = Some x -> getitem l i w = (Ok x, w).
Proof. intros E. unfold getitem. now rewrite E. Qed.

Lemma setitem_lt X i v w :
  i < length X -> setitem X i v w = (Ok (<[i:=v]> X), w).
Proof. intros L. unfold setitem. now rewrite decide_True. Qed.

Lemma setitem_ge X i v w :
  length X <= i -> setitem X i v w = (Raise IndexError, w).
Proof. intros L. unfold setitem. rewrite decide_False; [reflexivity|lia]. Qed.

Lemma py_call_callable v x w :
  callable v = true -> py_call v x w = (Ok (fn v x), w).
Proof. intros C. unfold py_call. now rewrite C. Qed.

(** *** One pass of a loop *)

Lemma add_jump_eq xi dJ i X j base w :
  i < length X -> dJ !! i = Some j -> X !! i = Some base ->
  add_jump (PyNum xi) dJ i X w = jump_outcome xi j base i X w.
Proof.
  intros L EJ EX. unfold add_jump, jump_outcome.
  run (getitem_some _ _ _ _ EJ).
  destruct (0 <? j)%Z.
  - run (getitem_some _ _ _ _ EX).
    cbn [py_num]. rewrite bind_ret. unfold bind, np_random_normal1.
    destruct (normal_ok (np_sqrt xi)); [|reflexivity].
    destruct (normal1 (np_sqrt xi) (gen w)) as [z g].
    rewrite setitem_lt by exact L. reflexivity.
  - rewrite (list_insert_id _ _ _ EX). reflexivity.
Qed.

Lemma euler_step_eq delta_t a b xi dw dJ i X x wi j w :
  callable a = true -> callable b = true ->
  0 < i < length X ->
  X !! (i - 1) = Some x -> dw !! i = Some wi -> dJ !! i = Some j ->
  euler_step delta_t a b (PyNum xi) dw dJ i X w
  = jump_outcome xi j (euler_update delta_t a b x wi) i X w.
Proof.
  intros Ca Cb L EX EW EJ. unfold euler_step.
  run (getitem_some _ _ _ _ EX).
  run (py_call_callable _ _ _ Ca).
  run (py_call_callable _ _ _ Cb).
  run (getitem_some _ _ _ _ EW).
  run (setitem_lt _ _ _ _ (proj2 L)).
  rewrite (add_jump_eq _ _ _ _ j (euler_update delta_t a b x wi)).
  - unfold jump_outcome.
    destruct (0 <? j)%Z; [|now rewrite list_insert_insert_eq].
    destruct (normal_ok (np_sqrt xi)); [|reflexivity].
    destruct (normal1 (np_sqrt xi) (gen w)).
    now rewrite list_insert_insert_eq.
  - rewrite length_insert. lia.
  - exact EJ.
  - apply list_lookup_insert_eq. lia.
Qed.

Lemma milstein_step_eq delta_t a b b_prime xi dw dJ i X x wi j w :
  callable a = true -> callable b = true -> callable b_prime = true ->
  0 < i < length X ->
  X !! (i - 1) = Some x -> dw !! i = Some wi -> dJ !! i = Some j ->
  milstein_step delta_t a b b_prime (PyNum xi) dw
    (milstein_terms delta_t dw) dJ i X w
  = jump_outcome xi j
      (milstein_update delta_t a b b_prime x wi (milstein_term delta_t wi))
      i X w.
Proof.
  intros Ca Cb Cb' L EX EW EJ. unfold milstein_step.
  assert (milstein_terms delta_t dw !! i = Some (milstein_term delta_t wi))
    as EC.
  { unfold milstein_terms. rewrite list_lookup_fmap, EW. reflexivity. }
  run (getitem_some _ _ _ _ EX).
  run (py_call_callable _ _ _ Ca).
  run (py_call_callable _ _ _ Cb).
  run (getitem_some _ _ _ _ EW).
  run (py_call_callable _ _ _ Cb).
  run (py_call_callable _ _ _ Cb').
  run (getitem_some _ _ _ _ EC).
  run (setitem_lt _ _ _ _ (proj2 L)).
  rewrite (add_jump_eq _ _ _ _ j
             (milstein_update delta_t a b b_prime x wi
                (milstein_term delta_t wi))).
  - unfold jump_outcome.
    destruct (0 <? j)%Z; [|now rewrite list_insert_insert_eq].
    destruct (normal_ok (np_sqrt xi)); [|reflexivity].
    destruct (normal1 (np_sqrt xi) (gen w)).
    now rewrite list_insert_insert_eq.
  - rewrite length_insert. lia.
  - exact EJ.
  - apply list_lookup_insert_eq. lia.
Qed.


Lemma jump_outcome_inv xi j base i X w X1 w1 :
  jump_outcome xi j base i X w = (Ok X1, w1) ->
  exists y,
    X1 = <[i:=y]> X
    /\ jump_rel xi j base y (gen w) (gen w1)
    /\ log w1
       = log w ++ (if (0 <? j)%Z then [EvNormal (np_sqrt xi) None] else []).
Proof.
  unfold jump_outcome, jump_rel. destruct (0 <? j)%Z.
  - destruct (normal_ok (np_sqrt xi)); [|discriminate].
    destruct (normal1 (np_sqrt xi) (gen w)) as [z g]. intros [= <- <-].
    eexists. repeat split; reflexivity.
  - intros [= <- <-]. exists base. rewrite app_nil_r. repeat split.
Qed.

Lemma jump_outcome_ok xi j base i X w :
  normal_ok (np_sqrt xi) = true ->
  exists y w1, jump_outcome xi j base i X w = (Ok (<[i:=y]> X), w1).
Proof.
  intros V. unfold jump_outcome. rewrite V. destruct (0 <? j)%Z.
  - destruct (normal1 (np_sqrt xi) (gen w)) as [z g]. eauto.
  - eauto.
Qed.

(** *** The loops

    Both loops run the same way: the pass at index [i] writes [X[i]] from
    [X[i-1]] and leaves the other entries alone.  [upd i x] is the diffusion
    update of the scheme at index [i] from the previous value [x]. *)

Section Loop.
Variables (body : nat -> list F -> M (list F)) (upd : nat -> F -> F).
Variables (xi : pynum) (J : list Z) (N : nat).

Hypothesis body_eq : forall i X x j w,
  0 < i < N -> length X = N ->
  X !! (i - 1) = Some x -> J !! i = Some j ->
  body i X w = jump_outcome xi j (upd i x) i X w.
Hypothesis J_length : length J = N.

Lemma jump_events_cons s n j :
  J !! s = Some j ->
  jump_events xi J s (S n)
  = (if (0 <? j)%Z then [EvNormal (np_sqrt xi) None] else [])
    ++ jump_events xi J (S s) n.
Proof. intros E. unfold jump_events. cbn. now rewrite E. Qed.

Lemma loop_path n : forall s X w X' w',
  0 < s -> s + n <= N -> length X = N ->
  for_each (seq s n) body X w = (Ok X', w') ->
  length X' = N
  /\ (forall k, k < s -> X' !! k = X !! k)
  /\ log w' = log w ++ jump_events xi J s n
  /\ exists G : nat -> rng,
      G s = gen w /\ G (s + n) = gen w'
      /\ forall i, s <= i < s + n ->
         exists x y j,
           X' !! (i - 1) = Some x /\ X' !! i = Some y /\ J !! i = Some j
           /\ jump_rel xi j (upd i x) y (G i) (G (i + 1)).
Proof.
  induction n as [|n IH]; intros s X w X' w' Hs Hn HX E.
  - cbn in E. injection E as <- <-. repeat split; try assumption.
    + unfold jump_events. cbn. now rewrite app_nil_r.
    + exists (fun _ => gen w). repeat split. intros i Hi. lia.
  - cbn [seq for_each] in E.
    inv_bind E X1 w1 E1.
    destruct (lookup_lt_is_Some_2 X (s - 1)) as [x Ex]; [lia|].
    destruct (lookup_lt_is_Some_2 J s) as [j Ej]; [lia|].
    rewrite (body_eq s X x j w) in E1 by (assumption || lia).
    apply jump_outcome_inv in E1. destruct E1 as (y & -> & R & L1).
    apply IH in E; [|lia|lia|now rewrite length_insert].
    destruct E as (HX' & Hk & L & G & G0 & Gn & Hi).
    split; [exact HX'|]. split; [|split].
    + intros k Hlt. rewrite Hk by lia. apply list_lookup_insert_ne. lia.
    + rewrite L, L1, (jump_events_cons s n j Ej). now rewrite app_assoc.
    + exists (fun i => if decide (i <= s) then gen w else G i).
      split; [now rewrite decide_True by lia|].
      split; [rewrite decide_False by lia; rewrite <- Gn; f_equal; lia|].
      intros i Hr. destruct (decide (i = s)) as [->|Hne].
      * exists x, y, j. rewrite !Hk by lia.
        rewrite list_lookup_insert_ne by lia.
        rewrite list_lookup_insert_eq by lia.
        rewrite decide_True by lia. rewrite decide_False by lia.
        replace (s + 1) with (S s) by lia. rewrite G0. auto.
      * destruct (Hi i) as (x' & y' & j' & A & B & C & D); [lia|].
        exists x', y', j'. rewrite !decide_False by lia. auto.
Qed.

Lemma loop_total n : forall s X w,
  normal_ok (np_sqrt xi) = true ->
  0 < s -> s + n <= N -> length X = N ->
  exists X' w', for_each (seq s n) body X w = (Ok X', w').
Proof.
  induction n as [|n IH]; intros s X w V Hs Hn HX.
  - cbn. unfold ret. eauto.
  - cbn [seq for_each].
    destruct (lookup_lt_is_Some_2 X (s - 1)) as [x Ex]; [lia|].
    destruct (lookup_lt_is_Some_2 J s) as [j Ej]; [lia|].
    destruct (jump_outcome_ok xi j (upd s x) s X w V) as (y & w1 & E1).
    destruct (IH (S s) (<[s:=y]> X) w1 V) as (X' & w' & E);
      [lia|lia|now rewrite length_insert|].
    exists X', w'. rewrite (bind_ok _ _ w (<[s:=y]> X) w1); [exact E|].
    now rewrite (body_eq s X x j w) by (assumption || lia).
Qed.


End Loop.


(** *** From the entry to the loops *)

Lemma initial_value_ok delta_t init X w :
  0 < length X -> init_ok init = true ->
  (is_None init = true -> normal_ok (np_sqrt delta_t) = true) ->
  initial_value delta_t init X w
  = (Ok (<[0 := initial_condition delta_t init (gen w)]> X),
     {| gen := after_initial delta_t init (gen w);
        log := log w ++ (if is_None init
                         then [EvNormal (np_sqrt delta_t) (Some 1)]
                         else []) |}).
Proof.
  intros L I V. unfold initial_value, after_initial, initial_condition.
  destruct init; try discriminate I; cbn [is_None type_int_or_float].
  - run (np_random_normal_ok _ 1 w (V eq_refl)).
    rewrite draws_one. cbn [fst snd]. now rewrite setitem_lt.
  - rewrite py_assert_true_bind. cbn [py_num]. rewrite bind_ret.
    rewrite setitem_lt by exact L. rewrite app_nil_r. now destruct w.
Qed.


Lemma initial_value_inv delta_t init X w X1 w1 :
  initial_value delta_t init X w = (Ok X1, w1) ->
  0 < length X /\ init_ok init = true
  /\ (is_None init = true -> normal_ok (np_sqrt delta_t) = true).
Proof.
  intros E. unfold initial_value in E.
  assert (0 < length X) as L.
  { destruct (decide (0 < length X)) as [L|L]; [exact L|exfalso].
    assert (length X <= 0) as L' by lia.
    destruct (is_None init).
    - inv_bind E x0 w2 E0.
      destruct x0 as [|v [|? ?]]; try discriminate E.
      now rewrite setitem_ge in E.
    - inv_bind E u w2 E0.
      inv_bind E v w3 E1.
      now rewrite setitem_ge in E. }
  split; [exact L|]. unfold init_ok.
  destruct (is_None init).
  - split; [reflexivity|]. intros _.
    apply bind_inv_ok in E. destruct E as (x0 & w2 & E0 & _).
    now apply np_random_normal_inv in E0.
  - split; [|discriminate].
    destruct (type_int_or_float init); [reflexivity|discriminate E].
Qed.

Lemma num_of_type v :
  type_int_or_float v = true -> exists n, v = PyNum n.
Proof. destruct v; try discriminate. eauto. Qed.

Lemma passes_checks_types time delta_t a b xi lamb solver b_prime :
  passes_checks time delta_t a b xi lamb solver b_prime = true ->
  (exists v, xi = PyNum v) /\ (exists l, lamb = PyNum l)
  /\ callable a = true /\ callable b = true
  /\ (solver = "Milstein" -> callable b_prime = true).
Proof.
  unfold passes_checks. intros P.
  apply andb_prop in P. destruct P as [P Tx].
  apply andb_prop in P. destruct P as [P Tl].
  apply andb_prop in P. destruct P as [P Cb].
  apply andb_prop in P. destruct P as [P Ca].
  apply andb_prop in P. destruct P as [_ Pm].
  repeat split; auto using num_of_type.
  intros ->. cbn in Pm. now apply andb_prop in Pm.
Qed.

(** A call whose arguments are accepted and whose length is at least 1 gets
    to the loops with the path initialised and both blocks drawn. *)
Lemma jdprocess_sampled time delta_t a b xi lamb init solver b_prime w len l :
  passes_checks time delta_t a b xi lamb solver b_prime = true ->
  lamb = PyNum l ->
  ftrunc (num_truediv time delta_t) = Ok len -> (1 <= len)%Z ->
  init_ok init = true ->
  normal_ok (np_sqrt delta_t) = true ->
  poisson_ok (jump_rate l delta_t) = true ->
  let n := Z.to_nat len in
  jdprocess time delta_t a b xi lamb init solver b_prime w
  = integrate delta_t a b xi solver b_prime n
      (wiener_increments delta_t init n (gen w))
      (jump_counts delta_t l init n (gen w))
      (initial_path delta_t init n (gen w))
      (sampled_world delta_t l init n w).
Proof.
  intros P -> T L I Vn Vp n. unfold jdprocess.
  assert (0 < length (replicate n fzero)) as L0.
  { rewrite length_replicate. unfold n. lia. }
  run (entry_checks_pass _ _ _ _ _ _ _ _ w P).
  unfold py_int at 1. unfold bind at 1. rewrite T.
  unfold np_zeros. rewrite (proj2 (Z.ltb_ge len 0)) by lia.
  unfold bind at 1. fold n.
  run (initial_value_ok delta_t init _ _ L0 I (fun _ => Vn)).
  run (np_random_normal_ok _ n _ Vn).
  cbn [py_num]. rewrite bind_ret.
  run (np_random_poisson_ok _ n _ Vp).
  unfold wiener_increments, jump_counts, initial_path, sampled_world,
    after_jumps, after_wiener, sampling_events, emit, jump_rate.
  cbn [gen log]. f_equal. f_equal.
  rewrite <- !app_assoc. reflexivity.
Qed.

(** A call that returns was accepted, had a length of at least 1, and found
    both samplers willing. *)
Lemma jdprocess_ok_conditions time delta_t a b xi lamb init solver b_prime
    w X w' :
  jdprocess time delta_t a b xi lamb init solver b_prime w = (Ok X, w') ->
  exists len l,
    passes_checks time delta_t a b xi lamb solver b_prime = true
    /\ lamb = PyNum l
    /\ ftrunc (num_truediv time delta_t) = Ok len /\ (1 <= len)%Z
    /\ init_ok init = true
    /\ normal_ok (np_sqrt delta_t) = true
    /\ poisson_ok (jump_rate l delta_t) = true.
Proof.
  intros E. pose proof (jdprocess_ok_checks _ _ _ _ _ _ _ _ _ _ _ _ E) as P.
  destruct (passes_checks_types _ _ _ _ _ _ _ _ P) as (_ & [l ->] & _).
  unfold jdprocess in E.
  run_in E (entry_checks_pass _ _ _ _ _ _ _ _ w P).
  inv_bind E len w1 E1.
  unfold py_int in E1. injection E1 as T <-.
  inv_bind E X0 w2 E2.
  unfold np_zeros in E2. destruct (len <? 0)%Z eqn:Neg; [discriminate|].
  injection E2 as <- <-.
  inv_bind E X1 w3 E3.
  apply initial_value_inv in E3. destruct E3 as (L & I & _).
  rewrite length_replicate in L.
  inv_bind E dw w4 E4.
  apply np_random_normal_inv in E4.
  cbn [py_num] in E. rewrite bind_ret in E.
  inv_bind E dJ w5 E5.
  apply np_random_poisson_inv in E5.
  exists len, l. repeat split; auto. lia.
Qed.


(** *** The integration block *)

Lemma bind_ret_r {A} (m : M A) w : bind m ret w = m w.
Proof. unfold bind. now destruct (m w) as [[a|e] w1]. Qed.

Lemma integrate_euler delta_t a b xi b_prime n dw dJ X w :
  integrate delta_t a b xi "Euler" b_prime n dw dJ X w
  = for_each (py_range 1 n) (euler_step delta_t a b xi dw dJ) X w.
Proof.
  exact (bind_ret_r
           (for_each (py_range 1 n) (euler_step delta_t a b xi dw dJ) X) w).
Qed.

Lemma integrate_milstein delta_t a b xi b_prime n dw dJ X w :
  integrate delta_t a b xi "Milstein" b_prime n dw dJ X w
  = for_each (py_range 1 n)
      (milstein_step delta_t a b b_prime xi dw (milstein_terms delta_t dw) dJ)
      X w.
Proof.
  exact (bind_ret_r
           (for_each (py_range 1 n)
              (milstein_step delta_t a b b_prime xi dw
                 (milstein_terms delta_t dw) dJ) X) w).
Qed.

Lemma integrate_other delta_t a b xi solver b_prime n dw dJ X w :
  solver <> "Euler" -> solver <> "Milstein" ->
  integrate delta_t a b xi solver b_prime n dw dJ X w = (Ok X, w).
Proof.
  intros NE NM. unfold integrate.
  apply String.eqb_neq in NE, NM. now rewrite NE, NM.
Qed.

Lemma wiener_increments_length delta_t init n g :
  length (wiener_increments delta_t init n g) = n.
Proof. apply draws_length. Qed.

Lemma jump_counts_length delta_t l init n g :
  length (jump_counts delta_t l init n g) = n.
Proof. apply draws_length. Qed.

Lemma initial_path_length delta_t init n g :
  length (initial_path delta_t init n g) = n.
Proof. unfold initial_path. now rewrite length_insert, length_replicate. Qed.

Lemma initial_path_head delta_t init n g :
  0 < n ->
  initial_path delta_t init n g !! 0
  = Some (initial_condition delta_t init g).
Proof.
  intros L. apply list_lookup_insert_eq. now rewrite length_replicate.
Qed.

Lemma initial_path_cons delta_t init n g :
  initial_path delta_t init (S n) g
  = initial_condition delta_t init g :: replicate n fzero.
Proof. reflexivity. Qed.

(** The Euler loop as the generic loop: its diffusion update at index [i]. *)
Lemma euler_step_outcome delta_t a b xi dw dJ i X x j w :
  callable a = true -> callable b = true -> length dw = length X ->
  0 < i < length X ->
  X !! (i - 1) = Some x -> dJ !! i = Some j ->
  euler_step delta_t a b (PyNum xi) dw dJ i X w
  = jump_outcome xi j
      (euler_update delta_t a b x (default fzero (dw !! i))) i X w.
Proof.
  intros Ca Cb Lw L EX EJ.
  destruct (lookup_lt_is_Some_2 dw i) as [wi Ew]; [lia|].
  rewrite Ew. now apply euler_step_eq.
Qed.

Lemma milstein_step_outcome delta_t a b b_prime xi dw dJ i X x j w :
  callable a = true -> callable b = true -> callable b_prime = true ->
  length dw = length X ->
  0 < i < length X ->
  X !! (i - 1) = Some x -> dJ !! i = Some j ->
  milstein_step delta_t a b b_prime (PyNum xi) dw
    (milstein_terms delta_t dw) dJ i X w
  = jump_outcome xi j
      (milstein_update delta_t a b b_prime x (default fzero (dw !! i))
         (milstein_term delta_t (default fzero (dw !! i)))) i X w.
Proof.
  intros Ca Cb Cb' Lw L EX EJ.
  destruct (lookup_lt_is_Some_2 dw i) as [wi Ew]; [lia|].
  rewrite Ew. now apply milstein_step_eq.
Qed.


(** *** The schemes *)

(** C3. A call with [solver = 'Euler'] that returns a path [X] of length [n]
    has, at every index [i] in [1..n-1],
    [X[i] = X[i-1] + a(X[i-1]) * delta_t + b(X[i-1]) * dw[i]]
    where [dw] is the array of Wiener increments generated before the loop,
    to which [dJ[i]] times one fresh variate of [Normal(0, sqrt(xi))] is
    added exactly when the pre-generated jump count [dJ[i]] is positive; with
    [dJ[i] = 0] the generator is not touched at that index.  [G i] is the
    generator as the pass of index [i] finds it. *)
Theorem euler_recurrence time delta_t a b xi lamb init b_prime w X w' :
  jdprocess time delta_t a b xi lamb init "Euler" b_prime w = (Ok X, w') ->
  exists (n : nat) (v l : pynum) (G : nat -> rng),
    xi = PyNum v /\ lamb = PyNum l
    /\ ftrunc (num_truediv time delta_t) = Ok (Z.of_nat n)
    /\ length X = n
    /\ X !! 0 = Some (initial_condition delta_t init (gen w))
    /\ G 1 = after_jumps delta_t l init n (gen w) /\ G n = gen w'
    /\ forall i, 1 <= i < n ->
       exists x wi j y,
         X !! (i - 1) = Some x
         /\ wiener_increments delta_t init n (gen w) !! i = Some wi
         /\ jump_counts delta_t l init n (gen w) !! i = Some j
         /\ X !! i = Some y
         /\ jump_rel v j (euler_update delta_t a b x wi) y (G i) (G (i + 1)).
Proof.
  intros E.
  destruct (jdprocess_ok_conditions _ _ _ _ _ _ _ _ _ _ _ _ E)
    as (len & l & P & -> & T & L & I & Vn & Vp).
  destruct (passes_checks_types _ _ _ _ _ _ _ _ P)
    as ([v ->] & _ & Ca & Cb & _).
  rewrite (jdprocess_sampled _ _ _ _ _ _ _ _ _ w len l P eq_refl T L I Vn Vp)
    in E.
  rewrite integrate_euler in E. unfold py_range in E.
  set (n := Z.to_nat len) in *.
  set (W := wiener_increments delta_t init n (gen w)) in *.
  set (J := jump_counts delta_t l init n (gen w)) in *.
  assert (length W = n) as LW by apply wiener_increments_length.
  assert (length J = n) as LJ by apply jump_counts_length.
  apply (loop_path _
           (fun i x => euler_update delta_t a b x (default fzero (W !! i)))
           v J n) in E.
  - destruct E as (LX & Hhead & _ & G & G1 & Gn & Hi).
    exists n, v, l, G. repeat split; auto.
    + rewrite T. f_equal. unfold n. lia.
    + rewrite Hhead by lia. apply initial_path_head. unfold n. lia.
    + rewrite <- Gn. f_equal. unfold n. lia.
    + intros i Hr. destruct (Hi i) as (x & y & j & A & B & C & D); [lia|].
      destruct (lookup_lt_is_Some_2 W i) as [wi Ew]; [lia|].
      rewrite Ew in D. exists x, wi, j, y. auto.
  - intros i X0 x j w0 Hr LX0 EX EJ.
    apply euler_step_outcome; auto; lia || congruence.
  - exact LJ.
  - lia.
  - unfold n. lia.
  - apply initial_path_length.
Qed.

(** C5. A call that runs the Milstein loop and returns a path [X] of length
    [n] has computed the corrective terms [dw_2[k] = (dw[k]**2 - delta_t) *
    0.5] for all the indices at once, before the loop, and has, at every
    index [i] in [1..n-1],
    [X[i] = X[i-1] + a(X[i-1]) * delta_t + b(X[i-1]) * dw[i]
            + b(X[i-1]) * b_prime(X[i-1]) * dw_2[i]],
    to which [dJ[i]] times one fresh variate of [Normal(0, sqrt(xi))] is
    added exactly when [dJ[i]] is positive. *)
Theorem milstein_recurrence time delta_t a b xi lamb init b_prime w X w' :
  jdprocess time delta_t a b xi lamb init "Milstein" b_prime w = (Ok X, w') ->
  exists (n : nat) (v l : pynum) (G : nat -> rng) (dw_2 : list F),
    xi = PyNum v /\ lamb = PyNum l
    /\ ftrunc (num_truediv time delta_t) = Ok (Z.of_nat n)
    /\ length X = n
    /\ dw_2 = milstein_terms delta_t (wiener_increments delta_t init n (gen w))
    /\ length dw_2 = n
    /\ (forall k wk,
          wiener_increments delta_t init n (gen w) !! k = Some wk ->
          dw_2 !! k = Some ((wk * wk - to_float delta_t) * fhalf)%py)
    /\ X !! 0 = Some (initial_condition delta_t init (gen w))
    /\ G 1 = after_jumps delta_t l init n (gen w) /\ G n = gen w'
    /\ forall i, 1 <= i < n ->
       exists x wi c j y,
         X !! (i - 1) = Some x
         /\ wiener_increments delta_t init n (gen w) !! i = Some wi
         /\ dw_2 !! i = Some c
         /\ jump_counts delta_t l init n (gen w) !! i = Some j
         /\ X !! i = Some y
         /\ jump_rel v j (milstein_update delta_t a b b_prime x wi c) y
              (G i) (G (i + 1)).
Proof.
  intros E.
  destruct (jdprocess_ok_conditions _ _ _ _ _ _ _ _ _ _ _ _ E)
    as (len & l & P & -> & T & L & I & Vn & Vp).
  destruct (passes_checks_types _ _ _ _ _ _ _ _ P)
    as ([v ->] & _ & Ca & Cb & Cb').
  specialize (Cb' eq_refl).
  rewrite (jdprocess_sampled _ _ _ _ _ _ _ _ _ w len l P eq_refl T L I Vn Vp)
    in E.
  rewrite integrate_milstein in E. unfold py_range in E.
  set (n := Z.to_nat len) in *.
  set (W := wiener_increments delta_t init n (gen w)) in *.
  set (J := jump_counts delta_t l init n (gen w)) in *.
  assert (length W = n) as LW by apply wiener_increments_length.
  assert (length J = n) as LJ by apply jump_counts_length.
  assert (forall k wk, W !! k = Some wk ->
            milstein_terms delta_t W !! k = Some (milstein_term delta_t wk))
    as HC.
  { intros k wk Ek. unfold milstein_terms.
    rewrite list_lookup_fmap, Ek. reflexivity. }
  apply (loop_path _
           (fun i x =>
              milstein_update delta_t a b b_prime x (default fzero (W !! i))
                (milstein_term delta_t (default fzero (W !! i))))
           v J n) in E.
  - destruct E as (LX & Hhead & _ & G & G1 & Gn & Hi).
    exists n, v, l, G, (milstein_terms delta_t W).
    split; [reflexivity|]. split; [reflexivity|].
    split; [rewrite T; f_equal; unfold n; lia|].
    split; [exact LX|]. split; [reflexivity|].
    split; [unfold milstein_terms; now rewrite length_fmap|].
    split; [exact HC|].
    split; [rewrite Hhead by lia; apply initial_path_head; unfold n; lia|].
    split; [exact G1|].
    split; [rewrite <- Gn; f_equal; unfold n; lia|].
    intros i Hr. destruct (Hi i) as (x & y & j & A & B & C & D); [lia|].
    destruct (lookup_lt_is_Some_2 W i) as [wi Ew]; [lia|].
    rewrite Ew in D. exists x, wi, (milstein_term delta_t wi), j, y.
    auto 10.
  - intros i X0 x j w0 Hr LX0 EX EJ.
    apply milstein_step_outcome; auto; lia || congruence.
  - exact LJ.
  - lia.
  - unfold n. lia.
  - apply initial_path_length.
Qed.


(** *** What a returning call has done *)

(** The log of the integration block, whichever way [solver] sends it. *)
Lemma integrate_log delta_t a b v solver b_prime n W J X w X' w' :
  callable a = true -> callable b = true ->
  (solver = "Milstein" -> callable b_prime = true) ->
  0 < n -> length X = n -> length W = n -> length J = n ->
  integrate delta_t a b (PyNum v) solver b_prime n W J X w = (Ok X', w') ->
  length X' = n /\ X' !! 0 = X !! 0
  /\ log w'
     = log w ++ (if (solver =? "Euler") || (solver =? "Milstein")
                 then jump_events v J 1 (n - 1) else []).
Proof.
  intros Ca Cb Cb' Ln LX LW LJ E.
  destruct (String.eqb_spec solver "Euler") as [->|NE].
  - rewrite integrate_euler in E. unfold py_range in E.
    apply (loop_path _
             (fun i x => euler_update delta_t a b x (default fzero (W !! i)))
             v J n) in E; auto; try lia.
    + destruct E as (LX' & Hk & L & _). auto with lia.
    + intros i X0 x j w0 Hr LX0 EX EJ.
      apply euler_step_outcome; auto; lia || congruence.
  - destruct (String.eqb_spec solver "Milstein") as [->|NM].
    + rewrite integrate_milstein in E. unfold py_range in E.
      apply (loop_path _
               (fun i x =>
                  milstein_update delta_t a b b_prime x
                    (default fzero (W !! i))
                    (milstein_term delta_t (default fzero (W !! i))))
               v J n) in E; auto; try lia.
      * destruct E as (LX' & Hk & L & _). auto with lia.
      * intros i X0 x j w0 Hr LX0 EX EJ.
        apply milstein_step_outcome; auto; lia || congruence.
    + rewrite integrate_other in E by assumption.
      injection E as <- <-. rewrite app_nil_r. auto.
Qed.

(** Every returned path has the length [int(time / delta_t)], which is then
    at least 1, and starts with the initial condition. *)
Lemma jdprocess_length time delta_t a b xi lamb init solver b_prime w X w' :
  jdprocess time delta_t a b xi lamb init solver b_prime w = (Ok X, w') ->
  exists n,
    ftrunc (num_truediv time delta_t) = Ok (Z.of_nat n)
    /\ 1 <= n /\ length X = n
    /\ X !! 0 = Some (initial_condition delta_t init (gen w)).
Proof.
  intros E.
  destruct (jdprocess_ok_conditions _ _ _ _ _ _ _ _ _ _ _ _ E)
    as (len & l & P & -> & T & L & I & Vn & Vp).
  destruct (passes_checks_types _ _ _ _ _ _ _ _ P)
    as ([v ->] & _ & Ca & Cb & Cb').
  rewrite (jdprocess_sampled _ _ _ _ _ _ _ _ _ w len l P eq_refl T L I Vn Vp)
    in E.
  apply integrate_log in E; auto using initial_path_length,
    wiener_increments_length, jump_counts_length; [|lia].
  destruct E as (LX & Hd & _). exists (Z.to_nat len).
  rewrite Z2Nat.id by lia. repeat split; auto; [lia|].
  rewrite Hd. apply initial_path_head. lia.
Qed.

Lemma draw_order_returned time delta_t a b xi lamb init solver b_prime
    w X w' :
  jdprocess time delta_t a b xi lamb init solver b_prime w = (Ok X, w') ->
  exists (n : nat) (v l : pynum),
    xi = PyNum v /\ lamb = PyNum l
    /\ ftrunc (num_truediv time delta_t) = Ok (Z.of_nat n)
    /\ log w'
       = log w ++ [EvZeros n]
         ++ (if is_None init then [EvNormal (np_sqrt delta_t) (Some 1)]
             else [])
         ++ [EvNormal (np_sqrt delta_t) (Some n);
             EvPoisson (jump_rate l delta_t) (Some n)]
         ++ (if (solver =? "Euler") || (solver =? "Milstein")
             then jump_events v (jump_counts delta_t l init n (gen w))
                    1 (n - 1)
             else []).
Proof.
  intros E.
  destruct (jdprocess_ok_conditions _ _ _ _ _ _ _ _ _ _ _ _ E)
    as (len & l & P & -> & T & L & I & Vn & Vp).
  destruct (passes_checks_types _ _ _ _ _ _ _ _ P)
    as ([v ->] & _ & Ca & Cb & Cb').
  rewrite (jdprocess_sampled _ _ _ _ _ _ _ _ _ w len l P eq_refl T L I Vn Vp)
    in E.
  apply integrate_log in E; auto using initial_path_length,
    wiener_increments_length, jump_counts_length; [|lia].
  destruct E as (_ & _ & Lg). exists (Z.to_nat len), v, l.
  rewrite Z2Nat.id by lia. repeat split; auto.
  rewrite Lg. unfold sampled_world, sampling_events. cbn [log].
  now rewrite <- !app_assoc.
Qed.


(** Accepted arguments, a length of at least 1 and willing samplers make the
    call return, whatever [solver] is. *)
Lemma jdprocess_returns time delta_t a b xi lamb init solver b_prime w
    len v l :
  passes_checks time delta_t a b xi lamb solver b_prime = true ->
  xi = PyNum v -> lamb = PyNum l ->
  ftrunc (num_truediv time delta_t) = Ok len -> (1 <= len)%Z ->
  init_ok init = true ->
  normal_ok (np_sqrt delta_t) = true ->
  poisson_ok (jump_rate l delta_t) = true ->
  normal_ok (np_sqrt v) = true ->
  exists X w',
    jdprocess time delta_t a b xi lamb init solver b_prime w = (Ok X, w').
Proof.
  intros P -> -> T L I Vn Vp Vx.
  destruct (passes_checks_types _ _ _ _ _ _ _ _ P) as (_ & _ & Ca & Cb & Cb').
  rewrite (jdprocess_sampled _ _ _ _ _ _ _ _ _ w len l P eq_refl T L I Vn Vp).
  set (n := Z.to_nat len).
  set (W := wiener_increments delta_t init n (gen w)).
  set (J := jump_counts delta_t l init n (gen w)).
  assert (length W = n) as LW by apply wiener_increments_length.
  assert (length J = n) as LJ by apply jump_counts_length.
  destruct (String.eqb_spec solver "Euler") as [->|NE].
  - rewrite integrate_euler. unfold py_range.
    apply (loop_total _
             (fun i x => euler_update delta_t a b x (default fzero (W !! i)))
             v J n); auto using initial_path_length; try (unfold n; lia).
    intros i X0 x j w0 Hr LX0 EX EJ.
    apply euler_step_outcome; auto; lia || congruence.
  - destruct (String.eqb_spec solver "Milstein") as [->|NM].
    + rewrite integrate_milstein. unfold py_range.
      apply (loop_total _
               (fun i x =>
                  milstein_update delta_t a b b_prime x
                    (default fzero (W !! i))
                    (milstein_term delta_t (default fzero (W !! i))))
               v J n); auto using initial_path_length; try (unfold n; lia).
      intros i X0 x j w0 Hr LX0 EX EJ.
      apply milstein_step_outcome; auto; lia || congruence.
    + rewrite integrate_other by assumption. eauto.
Qed.

(** *** Boundary and unrecognised solvers *)

Lemma integrate_one delta_t a b xi solver b_prime dw dJ X w :
  integrate delta_t a b xi solver b_prime 1 dw dJ X w = (Ok X, w).
Proof.
  unfold integrate.
  destruct (solver =? "Euler"), (solver =? "Milstein"); reflexivity.
Qed.

(** A call whose length is 1 returns the initial condition alone: the
    sampling phase is the whole run. *)
Lemma length_one_path time delta_t a b xi lamb init solver b_prime w l :
  passes_checks time delta_t a b xi lamb solver b_prime = true ->
  lamb = PyNum l ->
  ftrunc (num_truediv time delta_t) = Ok 1%Z ->
  init_ok init = true ->
  normal_ok (np_sqrt delta_t) = true ->
  poisson_ok (jump_rate l delta_t) = true ->
  jdprocess time delta_t a b xi lamb init solver b_prime w
  = (Ok [initial_condition delta_t init (gen w)],
     sampled_world delta_t l init 1 w).
Proof.
  intros P E T I Vn Vp.
  rewrite (jdprocess_sampled _ _ _ _ _ _ _ _ _ w 1%Z l P E T ltac:(lia) I Vn Vp).
  apply integrate_one.
Qed.

(** C9. With a [solver] that is neither ['Euler'] nor ['Milstein'], arguments
    that are otherwise valid and a length [N = int(time / delta_t)] of at
    least 1, the call raises nothing and returns the array of length [N]
    whose index 0 holds the initial condition and whose entries [1..N-1] are
    the zeros of the allocation: no loop runs, and the log ends with the
    sampling phase. *)
Theorem unknown_solver_accepted
    time delta_t a b xi l init solver b_prime w len :
  solver <> "Euler" -> solver <> "Milstein" ->
  passes_checks time delta_t a b xi (PyNum l) solver b_prime = true ->
  ftrunc (num_truediv time delta_t) = Ok len -> (1 <= len)%Z ->
  init_ok init = true ->
  normal_ok (np_sqrt delta_t) = true ->
  poisson_ok (jump_rate l delta_t) = true ->
  let n := Z.to_nat len in
  exists w',
    jdprocess time delta_t a b xi (PyNum l) init solver b_prime w
    = (Ok (initial_condition delta_t init (gen w)
           :: replicate (n - 1) fzero), w')
    /\ length (initial_condition delta_t init (gen w)
               :: replicate (n - 1) fzero) = n
    /\ log w'
       = log w ++ [EvZeros n]
         ++ (if is_None init then [EvNormal (np_sqrt delta_t) (Some 1)]
             else [])
         ++ [EvNormal (np_sqrt delta_t) (Some n);
             EvPoisson (jump_rate l delta_t) (Some n)].
Proof.
  intros NE NM P T L I Vn Vp n.
  exists (sampled_world delta_t l init n w).
  rewrite (jdprocess_sampled _ _ _ _ _ _ _ _ _ w len l P eq_refl T L I Vn Vp).
  fold n. rewrite integrate_other by assumption.
  assert (n = S (n - 1)) as Sn by (unfold n; lia).
  split; [|split].
  - rewrite Sn at 1. now rewrite initial_path_cons.
  - cbn. rewrite length_replicate. lia.
  - reflexivity.
Qed.


(** *** The order of the effects, for every outcome *)







(** *** The check of [init] and the empty path *)

(** Up to the allocation: accepted arguments and a length that [np.zeros]
    takes. *)
Lemma jdprocess_allocated time delta_t a b xi lamb init solver b_prime w len :
  passes_checks time delta_t a b xi lamb solver b_prime = true ->
  ftrunc (num_truediv time delta_t) = Ok len -> (0 <= len)%Z ->
  let n := Z.to_nat len in
  jdprocess time delta_t a b xi lamb init solver b_prime w
  = (X <- initial_value delta_t init (replicate n fzero) ;;
     dw <- np_random_normal (np_sqrt delta_t) n ;;
     l <- py_num lamb ;;
     dJ <- np_random_poisson (to_float (num_mul l delta_t)) n ;;
     integrate delta_t a b xi solver b_prime n dw dJ X)
      (emit (EvZeros n) (gen w) w).
Proof.
  intros P T L n. unfold jdprocess.
  run (entry_checks_pass _ _ _ _ _ _ _ _ w P).
  unfold py_int at 1. unfold bind at 1. rewrite T.
  unfold np_zeros. rewrite (proj2 (Z.ltb_ge len 0)) by lia.
  reflexivity.
Qed.

(** An [init] that is neither absent nor an [int] or a [float] fails the
    assertion of line 88, which comes after the allocation of line 82. *)
Lemma init_rejected time delta_t a b xi lamb init solver b_prime w len :
  passes_checks time delta_t a b xi lamb solver b_prime = true ->
  ftrunc (num_truediv time delta_t) = Ok len -> (0 <= len)%Z ->
  init_ok init = false ->
  jdprocess time delta_t a b xi lamb init solver b_prime w
  = (Raise (AssertionError "'init' is not an int or float"),
     emit (EvZeros (Z.to_nat len)) (gen w) w).
Proof.
  intros P T L I. rewrite (jdprocess_allocated _ _ _ _ _ _ _ _ _ _ len P T L).
  apply bind_raise. unfold initial_value, init_ok in *.
  destruct (is_None init); [discriminate|].
  destruct (type_int_or_float init); [discriminate|]. reflexivity.
Qed.

(** With a length of 0 the path has no index 0: the assignment of the
    initial value raises [IndexError], whether [init] is given or drawn. *)
Lemma empty_path_fails time delta_t a b xi lamb init solver b_prime w :
  passes_checks time delta_t a b xi lamb solver b_prime = true ->
  ftrunc (num_truediv time delta_t) = Ok 0%Z ->
  init_ok init = true ->
  (is_None init = true -> normal_ok (np_sqrt delta_t) = true) ->
  exists w',
    jdprocess time delta_t a b xi lamb init solver b_prime w
    = (Raise IndexError, w').
Proof.
  intros P T I V.
  rewrite (jdprocess_allocated _ _ _ _ _ _ _ _ _ _ 0%Z P T ltac:(lia)).
  cbn [Z.to_nat replicate]. unfold init_ok in I.
  destruct init; try discriminate I.
  - eexists. apply bind_raise. unfold initial_value. cbn [is_None].
    run (np_random_normal_ok _ 1 _ (V eq_refl)).
    rewrite draws_one. reflexivity.
  - eexists. apply bind_raise. reflexivity.
Qed.

(** C7, as the code has it.  A call whose [init] is given and is not an
    [int] or a [float] never returns a path and consumes no variate; at most
    the allocation has happened.  When the checks at entry pass and
    [int(time / delta_t)] is a length [N >= 0], the failure is the assertion
    failure of [init], raised after [N] has been computed and the array of
    length [N] allocated. *)
Theorem invalid_init_rejected
    time delta_t a b xi lamb init solver b_prime w :
  init_ok init = false ->
  (exists e w',
      jdprocess time delta_t a b xi lamb init solver b_prime w
      = (Raise e, w')
      /\ gen w' = gen w
      /\ (log w' = log w \/ exists n, log w' = log w ++ [EvZeros n]))
  /\ (forall len,
        passes_checks time delta_t a b xi lamb solver b_prime = true ->
        ftrunc (num_truediv time delta_t) = Ok len -> (0 <= len)%Z ->
        jdprocess time delta_t a b xi lamb init solver b_prime w
        = (Raise (AssertionError "'init' is not an int or float"),
           emit (EvZeros (Z.to_nat len)) (gen w) w)).
Proof.
  intros I. split; [|intros len P T L; now apply init_rejected].
  destruct (passes_checks time delta_t a b xi lamb solver b_prime) eqn:P.
  2:{ destruct (jdprocess_rejected _ _ _ _ _ _ init _ _ w P) as [msg R].
      exists (AssertionError msg), w. auto. }
  destruct (ftrunc (num_truediv time delta_t)) as [len|e] eqn:T.
  2:{ exists e, w. split; [|auto]. unfold jdprocess.
      run (entry_checks_pass _ _ _ _ _ _ _ _ w P).
      apply bind_raise. unfold py_int. now rewrite T. }
  destruct (len <? 0)%Z eqn:Neg.
  - exists ValueError, w. split; [|auto]. unfold jdprocess.
    run (entry_checks_pass _ _ _ _ _ _ _ _ w P).
    unfold py_int at 1. unfold bind at 1. rewrite T.
    apply bind_raise. unfold np_zeros. now rewrite Neg.
  - apply Z.ltb_ge in Neg. eexists _, _. split.
    + now apply (init_rejected _ _ _ _ _ _ _ _ _ _ len).
    + split; [reflexivity|]. right. eexists. reflexivity.
Qed.

(** C10. [xi], [lamb] and a given [init] are accepted only with the type
    [int] or [float] exactly: a numpy float, a numpy integer or a bool is
    neither.  Such an [xi] or [lamb] ends every call in an assertion failure
    at entry; such an [init] ends every call whose other arguments are valid
    in the assertion failure of [init]; and a call that returns had all
    three of the exact type ([init] possibly absent). *)
Theorem numeric_arguments_exact_type
    time delta_t a b xi lamb init solver b_prime w :
  (forall (f : F) (z : Z) (c : bool),
      type_int_or_float (NpFloat64 f) = false
      /\ type_int_or_float (NpInt64 z) = false
      /\ type_int_or_float (PyBool c) = false)
  /\ (type_int_or_float xi = false \/ type_int_or_float lamb = false ->
      exists msg,
        jdprocess time delta_t a b xi lamb init solver b_prime w
        = (Raise (AssertionError msg), w))
  /\ (is_None init = false -> type_int_or_float init = false ->
      forall len,
        passes_checks time delta_t a b xi lamb solver b_prime = true ->
        ftrunc (num_truediv time delta_t) = Ok len -> (0 <= len)%Z ->
        jdprocess time delta_t a b xi lamb init solver b_prime w
        = (Raise (AssertionError "'init' is not an int or float"),
           emit (EvZeros (Z.to_nat len)) (gen w) w))
  /\ (forall X w',
        jdprocess time delta_t a b xi lamb init solver b_prime w = (Ok X, w')
        -> type_int_or_float xi = true /\ type_int_or_float lamb = true
           /\ (is_None init = true \/ type_int_or_float init = true)).
Proof.
  split; [intros; repeat split|]. split; [|split].
  - intros V. apply jdprocess_rejected. unfold passes_checks.
    destruct V as [-> | ->]; rewrite ?andb_false_r; reflexivity.
  - intros N T len P Tr L. apply init_rejected; auto.
    unfold init_ok. now rewrite N, T.
  - intros X w' E.
    destruct (jdprocess_ok_conditions _ _ _ _ _ _ _ _ _ _ _ _ E)
      as (len & l & P & -> & _ & _ & I & _).
    destruct (passes_checks_types _ _ _ _ _ _ _ _ P) as ([v ->] & _).
    repeat split. unfold init_ok in I. now apply orb_prop in I.
Qed.

End Properties.

(** ** Further properties

    What else the code of [jdprocess] shows: when it returns and what it
    returns, how it fails on an empty path or a rejected rate, what
    [b_prime] and the first entries of the noise arrays have to do with the
    result, and what the loops compute when no jump occurs. *)

Section Further.
Context {fl : Float64} {rg : Generator}.

Implicit Types (w : world) (X : list F) (e : exn).

Ltac inv_bind E a w1 Ea :=
  apply bind_inv_ok in E; destruct E as (a & w1 & Ea & E).

Local Tactic Notation "run" uconstr(lem) :=
  rewrite (bind_ok _ _ _ _ _ lem).

(** X1. Arguments that pass the checks at entry, a length
    [N = int(time / delta_t)] of at least 1, an [init] that is absent or a
    number, and samplers that accept [sqrt(delta_t)], [lamb * delta_t] and
    [sqrt(xi)]: the call returns, whatever the solver string, a path of
    length exactly [N] whose index 0 holds the initial condition. *)
Theorem returns_path_of_length
    time delta_t a b v l init solver b_prime w len :
  passes_checks time delta_t a b (PyNum v) (PyNum l) solver b_prime = true ->
  ftrunc (num_truediv time delta_t) = Ok len -> (1 <= len)%Z ->
  init_ok init = true ->
  normal_ok (np_sqrt delta_t) = true ->
  poisson_ok (jump_rate l delta_t) = true ->
  normal_ok (np_sqrt v) = true ->
  exists X w',
    jdprocess time delta_t a b (PyNum v) (PyNum l) init solver b_prime w
    = (Ok X, w')
    /\ length X = Z.to_nat len
    /\ X !! 0 = Some (initial_condition delta_t init (gen w)).
Proof.
  intros P T L I Vn Vp Vx.
  destruct (jdprocess_returns time delta_t a b (PyNum v) (PyNum l) init
              solver b_prime w len v l P eq_refl eq_refl T L I Vn Vp Vx)
    as (X & w' & E).
  exists X, w'. split; [exact E|].
  destruct (jdprocess_length _ _ _ _ _ _ _ _ _ _ _ _ E)
    as (n & Tn & _ & LX & H0).
  rewrite T in Tn. injection Tn as ->. rewrite Nat2Z.id. auto.
Qed.

(** X2. With a length [int(time / delta_t)] of 0 the path has no index 0.
    A call that passes the checks then raises [IndexError] at the assignment
    of the initial value and returns nothing; the empty array has been
    allocated, and when [init] is absent the variate meant for [X[0]] has
    already been drawn. *)
Theorem zero_length_raises time delta_t a b xi lamb init solver b_prime w :
  passes_checks time delta_t a b xi lamb solver b_prime = true ->
  ftrunc (num_truediv time delta_t) = Ok 0%Z ->
  init_ok init = true ->
  (is_None init = true -> normal_ok (np_sqrt delta_t) = true) ->
  jdprocess time delta_t a b xi lamb init solver b_prime w
  = (Raise IndexError,
     {| gen := after_initial delta_t init (gen w);
        log := log w ++ [EvZeros 0]
               ++ (if is_None init
                   then [EvNormal (np_sqrt delta_t) (Some 1)] else []) |}).
Proof.
  intros P T I V.
  rewrite (jdprocess_allocated _ _ _ _ _ _ _ _ _ _ 0%Z P T ltac:(lia)).
  cbn [Z.to_nat replicate]. unfold init_ok in I.
  destruct init; try discriminate I.
  - apply bind_raise. unfold initial_value, after_initial. cbn [is_None].
    run (np_random_normal_ok _ 1 _ (V eq_refl)).
    rewrite draws_one. cbn [fst snd]. unfold emit. cbn [gen log].
    rewrite <- app_assoc. reflexivity.
  - apply bind_raise. unfold emit, after_initial. cbn [is_None gen log].
    rewrite app_nil_r. reflexivity.
Qed.

(** X3. The checks at entry do not look at the sign of [lamb]: a rate
    [lamb * delta_t] that the Poisson sampler rejects is found out only at
    line 96.  The call then fails with the sampler's [ValueError] and
    returns nothing, after the path has been allocated and initialised and
    the whole block of Wiener increments has been drawn. *)
Theorem rejected_rate_fails_late
    time delta_t a b xi l init solver b_prime w len :
  passes_checks time delta_t a b xi (PyNum l) solver b_prime = true ->
  ftrunc (num_truediv time delta_t) = Ok len -> (1 <= len)%Z ->
  init_ok init = true ->
  normal_ok (np_sqrt delta_t) = true ->
  poisson_ok (jump_rate l delta_t) = false ->
  let n := Z.to_nat len in
  jdprocess time delta_t a b xi (PyNum l) init solver b_prime w
  = (Raise ValueError,
     {| gen := after_wiener delta_t init n (gen w);
        log := log w ++ [EvZeros n]
               ++ (if is_None init
                   then [EvNormal (np_sqrt delta_t) (Some 1)] else [])
               ++ [EvNormal (np_sqrt delta_t) (Some n)] |}).
Proof.
  intros P T L I Vn Vp n.
  rewrite (jdprocess_allocated _ _ _ _ _ _ _ _ _ _ len P T ltac:(lia)).
  fold n.
  assert (0 < length (replicate n fzero)) as L0.
  { rewrite length_replicate. unfold n. lia. }
  run (initial_value_ok delta_t init _ _ L0 I (fun _ => Vn)).
  run (np_random_normal_ok _ n _ Vn).
  cbn [py_num]. rewrite bind_ret.
  apply bind_raise. unfold np_random_poisson.
  fold (jump_rate l delta_t). rewrite Vp.
  unfold after_wiener, emit. cbn [gen log].
  rewrite <- !app_assoc. reflexivity.
Qed.

(** X4. [b_prime] matters to the Milstein solver only: with any other
    solver string it is neither checked nor called, and two calls that
    differ in [b_prime] alone have the same outcome. *)
Theorem b_prime_unused
    time delta_t a b xi lamb init solver b_prime b_prime' w :
  solver <> "Milstein" ->
  jdprocess time delta_t a b xi lamb init solver b_prime w
  = jdprocess time delta_t a b xi lamb init solver b_prime' w.
Proof.
  intros NM. apply String.eqb_neq in NM.
  unfold jdprocess, entry_checks, integrate. rewrite NM. reflexivity.
Qed.

(** X5. What the two Milstein checks leave through.  A Milstein call that
    returns had a [b_prime] that is callable and answers [True] to
    [== None]: it was neither [None] nor a function.  With a positive [time]
    and [delta_t], a [b_prime] that is not [== None] (a function, say) is
    told to "introduce b'(x)", and [None] itself is told that "b'(x) must be
    a function". *)
Theorem milstein_checks
    time delta_t a b xi lamb init b_prime w :
  (forall X w',
      jdprocess time delta_t a b xi lamb init "Milstein" b_prime w
      = (Ok X, w') ->
      eq_None b_prime = true /\ callable b_prime = true
      /\ b_prime <> PyNone /\ forall f, b_prime <> PyFunction f)
  /\ (num_gt0 time = true -> num_gt0 delta_t = true ->
      eq_None b_prime = false ->
      jdprocess time delta_t a b xi lamb init "Milstein" b_prime w
      = (Raise (AssertionError "Introduce b'(x) to use the Milstein solver"),
         w))
  /\ (num_gt0 time = true -> num_gt0 delta_t = true ->
      eq_None b_prime = true -> callable b_prime = false ->
      jdprocess time delta_t a b xi lamb init "Milstein" b_prime w
      = (Raise (AssertionError "b'(x) must be a function"), w)).
Proof.
  split; [|split].
  - intros X w' E.
    pose proof (jdprocess_ok_checks _ _ _ _ _ _ _ _ _ _ _ _ E) as P.
    unfold passes_checks in P. cbn [String.eqb] in P.
    change ("Milstein" =? "Milstein") with true in P. cbv iota in P.
    destruct (eq_None b_prime) eqn:EN;
      [|now rewrite !andb_false_r in P].
    destruct (callable b_prime) eqn:C;
      [|now rewrite !andb_false_r in P].
    repeat split.
    + intros ->. discriminate C.
    + intros f ->. discriminate EN.
  - intros Pt Pd EN. unfold jdprocess. apply bind_raise.
    unfold entry_checks. rewrite Pt, Pd, EN. reflexivity.
  - intros Pt Pd EN C. unfold jdprocess. apply bind_raise.
    unfold entry_checks. rewrite Pt, Pd, EN, C. reflexivity.
Qed.

(** *** The noise at index 0 *)

Lemma for_each_ext (body body' : nat -> list F -> M (list F)) idx :
  (forall i X w, i ∈ idx -> body i X w = body' i X w) ->
  forall X w, for_each idx body X w = for_each idx body' X w.
Proof.
  induction idx as [|i idx IH]; intros Hb X w; [reflexivity|].
  cbn [for_each]. unfold bind. rewrite (Hb i X w) by (left; reflexivity).
  destruct (body' i X w) as [[X1|e] w1]; [|reflexivity].
  apply IH. intros k X2 w2 Hk. apply Hb. now right.
Qed.

Lemma bind_ext {A B} (m m' : M A) (k k' : A -> M B) w :
  (forall w0, m w0 = m' w0) -> (forall a w0, k a w0 = k' a w0) ->
  bind m k w = bind m' k' w.
Proof.
  intros Hm Hk. unfold bind. rewrite Hm.
  destruct (m' w) as [[a|e] w1]; [apply Hk|reflexivity].
Qed.

Lemma lookup_from_tail {A} (l l' : list A) i :
  drop 1 l = drop 1 l' -> 1 <= i -> l !! i = l' !! i.
Proof.
  intros D Hi. replace i with (1 + (i - 1)) by lia.
  rewrite <- !lookup_drop. now rewrite D.
Qed.

(** X6. The loops start at index 1: the first Wiener increment [dw[0]]
    and the first jump count [dJ[0]] are generated and never used.  Noise
    arrays that agree from index 1 on give the integration block the same
    outcome, for every solver. *)
Theorem noise_head_unused
    delta_t a b xi solver b_prime n dw dw' dJ dJ' X w :
  drop 1 dw = drop 1 dw' -> drop 1 dJ = drop 1 dJ' ->
  integrate delta_t a b xi solver b_prime n dw dJ X w
  = integrate delta_t a b xi solver b_prime n dw' dJ' X w.
Proof.
  intros Dw DJ. unfold integrate.
  assert (forall X w,
             for_each (py_range 1 n) (euler_step delta_t a b xi dw dJ) X w
             = for_each (py_range 1 n) (euler_step delta_t a b xi dw' dJ')
                 X w) as HE.
  { apply for_each_ext. intros i X0 w0 Hi.
    apply elem_of_seq in Hi.
    unfold euler_step, add_jump, getitem.
    rewrite (lookup_from_tail dw dw' i Dw) by lia.
    rewrite (lookup_from_tail dJ dJ' i DJ) by lia. reflexivity. }
  assert (forall X w,
             for_each (py_range 1 n)
               (milstein_step delta_t a b b_prime xi dw
                  (milstein_terms delta_t dw) dJ) X w
             = for_each (py_range 1 n)
                 (milstein_step delta_t a b b_prime xi dw'
                    (milstein_terms delta_t dw') dJ') X w) as HM.
  { apply for_each_ext. intros i X0 w0 Hi.
    apply elem_of_seq in Hi.
    unfold milstein_step, milstein_terms, add_jump, getitem.
    rewrite !list_lookup_fmap.
    rewrite (lookup_from_tail dw dw' i Dw) by lia.
    rewrite (lookup_from_tail dJ dJ' i DJ) by lia. reflexivity. }
  destruct (solver =? "Euler"), (solver =? "Milstein"); cbv zeta;
    repeat (apply bind_ext; intros); auto.
Qed.

(** *** Loops without jumps *)

Section QuietLoop.
Variables (body : nat -> list F -> M (list F)) (upd : nat -> F -> F).
Variables (xi : pynum) (J : list Z) (N : nat).

Hypothesis body_eq : forall i X x j w,
  0 < i < N -> length X = N ->
  X !! (i - 1) = Some x -> J !! i = Some j ->
  body i X w = jump_outcome xi j (upd i x) i X w.
Hypothesis J_length : length J = N.

(** Without a positive jump count the loop cannot fail and leaves the world
    alone. *)
Lemma loop_no_jump n : forall s X w,
  0 < s -> s + n <= N -> length X = N ->
  (forall i j, s <= i < s + n -> J !! i = Some j -> (j <= 0)%Z) ->
  exists X',
    for_each (seq s n) body X w = (Ok X', w)
    /\ length X' = N
    /\ (forall k, k < s -> X' !! k = X !! k)
    /\ forall i, s <= i < s + n ->
       exists x, X' !! (i - 1) = Some x /\ X' !! i = Some (upd i x).
Proof.
  induction n as [|n IH]; intros s X w Hs Hn HX Hq.
  - exists X. repeat split; auto. intros i Hi. lia.
  - cbn [seq for_each].
    destruct (lookup_lt_is_Some_2 X (s - 1)) as [x Ex]; [lia|].
    destruct (lookup_lt_is_Some_2 J s) as [j Ej]; [lia|].
    assert (body s X w = (Ok (<[s := upd s x]> X), w)) as E1.
    { rewrite (body_eq s X x j w) by (assumption || lia).
      unfold jump_outcome.
      rewrite (proj2 (Z.ltb_ge 0 j)); [reflexivity|].
      apply (Hq s j); [lia|exact Ej]. }
    destruct (IH (S s) (<[s := upd s x]> X) w) as (X' & E & LX' & Hk & Hi);
      [lia|lia|now rewrite length_insert| |].
    { intros i j' Hr. apply Hq. lia. }
    exists X'. split; [now rewrite (bind_ok _ _ _ _ _ E1)|].
    split; [exact LX'|]. split.
    + intros k Hlt. rewrite Hk by lia. apply list_lookup_insert_ne. lia.
    + intros i Hr. destruct (decide (i = s)) as [->|Hne].
      * exists x. rewrite !Hk by lia.
        rewrite list_lookup_insert_ne by lia.
        rewrite list_lookup_insert_eq by lia. auto.
      * apply Hi. lia.
Qed.

(** The generator after a loop that returns. *)
Lemma loop_generator n : forall s X w X' w',
  0 < s -> s + n <= N -> length X = N ->
  for_each (seq s n) body X w = (Ok X', w') ->
  gen w' = jump_generator xi J (seq s n) (gen w).
Proof.
  induction n as [|n IH]; intros s X w X' w' Hs Hn HX E.
  - cbn in E. now injection E as <- <-.
  - cbn [seq for_each] in E. inv_bind E X1 w1 E1.
    destruct (lookup_lt_is_Some_2 X (s - 1)) as [x Ex]; [lia|].
    destruct (lookup_lt_is_Some_2 J s) as [j Ej]; [lia|].
    rewrite (body_eq s X x j w) in E1 by (assumption || lia).
    apply jump_outcome_inv in E1. destruct E1 as (y & -> & R & _).
    apply IH in E; [|lia|lia|now rewrite length_insert].
    rewrite E. cbn [seq jump_generator]. rewrite Ej. f_equal.
    unfold jump_rel in R. destruct (0 <? j)%Z; tauto.
Qed.

End QuietLoop.

(** A list that starts at [x0] and follows [step] along [ws] is the
    reference path. *)
Lemma reference_unique (step : F -> F -> F) ws : forall x0 (L : list F),
  length L = S (length ws) ->
  L !! 0 = Some x0 ->
  (forall i, 1 <= i < length L ->
     exists x wi,
       L !! (i - 1) = Some x /\ ws !! (i - 1) = Some wi
       /\ L !! i = Some (step x wi)) ->
  L = x0 :: iterate_updates step x0 ws.
Proof.
  induction ws as [|w0 ws IH]; intros x0 L HL H0 Hrec.
  - destruct L as [|y [|? ?]]; try discriminate HL.
    cbn in H0. now injection H0 as ->.
  - destruct L as [|y L]; [discriminate HL|].
    cbn in H0. injection H0 as ->. cbn [iterate_updates]. f_equal.
    cbn [length] in HL. injection HL as HL.
    destruct (Hrec 1) as (x & wi & A & B & C); [cbn [length]; lia|].
    cbn in A, B, C. injection A as <-. injection B as <-.
    apply IH; [exact HL|exact C|].
    intros i Hi.
    destruct (Hrec (S i)) as (x & wi & A & B & C'); [cbn [length]; lia|].
    replace (S i - 1) with (S (i - 1)) in A, B by lia.
    cbn in A, B, C'. exists x, wi. auto.
Qed.

Lemma quiet_jumps (J : list Z) :
  forallb (fun j => (j <=? 0)%Z) (drop 1 J) = true ->
  forall i j, 1 <= i -> J !! i = Some j -> (j <= 0)%Z.
Proof.
  intros Q i j Hi E. rewrite forallb_forall in Q.
  apply Z.leb_le, Q, list_elem_of_In.
  apply (list_elem_of_lookup_2 _ (i - 1)).
  rewrite lookup_drop. now replace (1 + (i - 1)) with i by lia.
Qed.

(** X7. An Euler call in which no jump count from index 1 on is positive
    computes the Euler-Maruyama path of the drift and the diffusion: it
    returns [euler_reference] over the Wiener increments [dw[1..]], from the
    initial condition.  No amplitude is drawn, so the generator and the log
    are those of the sampling phase, and [xi] never reaches a sampler (the
    call returns even with an [xi] the sampler would reject). *)
Theorem euler_without_jumps
    time delta_t a b xi l init b_prime w len :
  passes_checks time delta_t a b xi (PyNum l) "Euler" b_prime = true ->
  ftrunc (num_truediv time delta_t) = Ok len -> (1 <= len)%Z ->
  init_ok init = true ->
  normal_ok (np_sqrt delta_t) = true ->
  poisson_ok (jump_rate l delta_t) = true ->
  let n := Z.to_nat len in
  forallb (fun j => (j <=? 0)%Z)
    (drop 1 (jump_counts delta_t l init n (gen w))) = true ->
  jdprocess time delta_t a b xi (PyNum l) init "Euler" b_prime w
  = (Ok (euler_reference delta_t a b
           (initial_condition delta_t init (gen w))
           (drop 1 (wiener_increments delta_t init n (gen w)))),
     sampled_world delta_t l init n w).
Proof.
  intros P T L I Vn Vp n Q.
  destruct (passes_checks_types _ _ _ _ _ _ _ _ P)
    as ([v ->] & _ & Ca & Cb & _).
  rewrite (jdprocess_sampled _ _ _ _ _ _ _ _ _ w len l P eq_refl T L I Vn Vp).
  fold n. rewrite integrate_euler. unfold py_range.
  set (W := wiener_increments delta_t init n (gen w)) in *.
  set (J := jump_counts delta_t l init n (gen w)) in *.
  assert (length W = n) as LW by apply wiener_increments_length.
  assert (length J = n) as LJ by apply jump_counts_length.
  destruct (loop_no_jump (euler_step delta_t a b (PyNum v) W J)
              (fun i x => euler_update delta_t a b x (default fzero (W !! i)))
              v J n) with (n := n - 1) (s := 1)
              (X := initial_path delta_t init n (gen w))
              (w := sampled_world delta_t l init n w)
    as (X' & E & LX' & Hk & Hi).
  - intros i X0 x j w0 Hr LX0 EX EJ.
    apply euler_step_outcome; auto; lia || congruence.
  - exact LJ.
  - lia.
  - unfold n. lia.
  - apply initial_path_length.
  - intros i j Hr. apply (quiet_jumps J Q). lia.
  - rewrite E. f_equal. f_equal. unfold euler_reference.
    apply reference_unique.
    + rewrite LX', length_drop, LW. unfold n. lia.
    + rewrite Hk by lia. apply initial_path_head. unfold n. lia.
    + intros i Hr. rewrite LX' in Hr.
      destruct (Hi i) as (x & A & B); [lia|].
      destruct (lookup_lt_is_Some_2 W i) as [wi Ew]; [lia|].
      rewrite Ew in B. exists x, wi. repeat split; auto.
      rewrite lookup_drop. now replace (1 + (i - 1)) with i by lia.
Qed.

(** X8. The same for a Milstein call that gets past the checks: without a
    positive jump count from index 1 on it returns [milstein_reference] over
    [dw[1..]], each step with its corrective term
    [(dw[i]**2 - delta_t) * 0.5], and the world of the sampling phase. *)
Theorem milstein_without_jumps
    time delta_t a b xi l init b_prime w len :
  passes_checks time delta_t a b xi (PyNum l) "Milstein" b_prime = true ->
  ftrunc (num_truediv time delta_t) = Ok len -> (1 <= len)%Z ->
  init_ok init = true ->
  normal_ok (np_sqrt delta_t) = true ->
  poisson_ok (jump_rate l delta_t) = true ->
  let n := Z.to_nat len in
  forallb (fun j => (j <=? 0)%Z)
    (drop 1 (jump_counts delta_t l init n (gen w))) = true ->
  jdprocess time delta_t a b xi (PyNum l) init "Milstein" b_prime w
  = (Ok (milstein_reference delta_t a b b_prime
           (initial_condition delta_t init (gen w))
           (drop 1 (wiener_increments delta_t init n (gen w)))),
     sampled_world delta_t l init n w).
Proof.
  intros P T L I Vn Vp n Q.
  destruct (passes_checks_types _ _ _ _ _ _ _ _ P)
    as ([v ->] & _ & Ca & Cb & Cb').
  specialize (Cb' eq_refl).
  rewrite (jdprocess_sampled _ _ _ _ _ _ _ _ _ w len l P eq_refl T L I Vn Vp).
  fold n. rewrite integrate_milstein. unfold py_range.
  set (W := wiener_increments delta_t init n (gen w)) in *.
  set (J := jump_counts delta_t l init n (gen w)) in *.
  assert (length W = n) as LW by apply wiener_increments_length.
  assert (length J = n) as LJ by apply jump_counts_length.
  destruct (loop_no_jump
              (milstein_step delta_t a b b_prime (PyNum v) W
                 (milstein_terms delta_t W) J)
              (fun i x =>
                 milstein_update delta_t a b b_prime x
                   (default fzero (W !! i))
                   (milstein_term delta_t (default fzero (W !! i))))
              v J n) with (n := n - 1) (s := 1)
              (X := initial_path delta_t init n (gen w))
              (w := sampled_world delta_t l init n w)
    as (X' & E & LX' & Hk & Hi).
  - intros i X0 x j w0 Hr LX0 EX EJ.
    apply milstein_step_outcome; auto; lia || congruence.
  - exact LJ.
  - lia.
  - unfold n. lia.
  - apply initial_path_length.
  - intros i j Hr. apply (quiet_jumps J Q). lia.
  - rewrite E. f_equal. f_equal. unfold milstein_reference.
    apply reference_unique.
    + rewrite LX', length_drop, LW. unfold n. lia.
    + rewrite Hk by lia. apply initial_path_head. unfold n. lia.
    + intros i Hr. rewrite LX' in Hr.
      destruct (Hi i) as (x & A & B); [lia|].
      destruct (lookup_lt_is_Some_2 W i) as [wi Ew]; [lia|].
      rewrite Ew in B. exists x, wi. repeat split; auto.
      rewrite lookup_drop. now replace (1 + (i - 1)) with i by lia.
Qed.

(** *** The two solvers and the random stream *)

(** The generator a returning Euler or Milstein call leaves behind. *)
Lemma scheme_generator time delta_t a b xi lamb init solver b_prime w X w' :
  solver = "Euler" \/ solver = "Milstein" ->
  jdprocess time delta_t a b xi lamb init solver b_prime w = (Ok X, w') ->
  exists (n : nat) (v l : pynum),
    xi = PyNum v /\ lamb = PyNum l
    /\ ftrunc (num_truediv time delta_t) = Ok (Z.of_nat n)
    /\ gen w'
       = jump_generator v (jump_counts delta_t l init n (gen w))
           (seq 1 (n - 1)) (after_jumps delta_t l init n (gen w)).
Proof.
  intros S E.
  destruct (jdprocess_ok_conditions _ _ _ _ _ _ _ _ _ _ _ _ E)
    as (len & l & P & -> & T & L & I & Vn & Vp).
  destruct (passes_checks_types _ _ _ _ _ _ _ _ P)
    as ([v ->] & _ & Ca & Cb & Cb').
  rewrite (jdprocess_sampled _ _ _ _ _ _ _ _ _ w len l P eq_refl T L I Vn Vp)
    in E.
  set (n := Z.to_nat len) in *.
  set (W := wiener_increments delta_t init n (gen w)) in *.
  set (J := jump_counts delta_t l init n (gen w)) in *.
  assert (length W = n) as LW by apply wiener_increments_length.
  assert (length J = n) as LJ by apply jump_counts_length.
  exists n, v, l. split; [reflexivity|]. split; [reflexivity|].
  split; [rewrite T; f_equal; unfold n; lia|].
  destruct S as [-> | ->].
  - rewrite integrate_euler in E. unfold py_range in E.
    apply (loop_generator _
             (fun i x => euler_update delta_t a b x (default fzero (W !! i)))
             v J n) in E; [exact E| | | | |].
    + intros i X0 x j w0 Hr LX0 EX EJ.
      apply euler_step_outcome; auto; lia || congruence.
    + exact LJ.
    + lia.
    + unfold n. lia.
    + apply initial_path_length.
  - rewrite integrate_milstein in E. unfold py_range in E.
    apply (loop_generator _
             (fun i x =>
                milstein_update delta_t a b b_prime x
                  (default fzero (W !! i))
                  (milstein_term delta_t (default fzero (W !! i))))
             v J n) in E; [exact E| | | | |].
    + intros i X0 x j w0 Hr LX0 EX EJ.
      apply milstein_step_outcome; auto; lia || congruence.
    + exact LJ.
    + lia.
    + unfold n. lia.
    + apply initial_path_length.
Qed.

(** X9. The two solvers share the noise.  An Euler call and a Milstein call
    on the same [time], [delta_t], [xi], [lamb] and [init], started with the
    same generator, that both return have made exactly the same sampler
    calls in the same order and leave the same generator behind, whatever
    their drift, diffusion and [b_prime]; their paths have the same length
    and the same initial value. *)
Theorem solvers_share_the_stream
    time delta_t a b a' b' xi lamb init b_prime b_prime' w X X' w1 w2 :
  jdprocess time delta_t a b xi lamb init "Euler" b_prime w = (Ok X, w1) ->
  jdprocess time delta_t a' b' xi lamb init "Milstein" b_prime' w
  = (Ok X', w2) ->
  w1 = w2 /\ length X = length X' /\ X !! 0 = X' !! 0.
Proof.
  intros E M.
  destruct (scheme_generator _ _ _ _ _ _ _ _ _ _ _ _ (or_introl eq_refl) E)
    as (n & v & l & Ex & El & T & G).
  destruct (scheme_generator _ _ _ _ _ _ _ _ _ _ _ _ (or_intror eq_refl) M)
    as (n' & v' & l' & Ex' & El' & T' & G').
  destruct (draw_order_returned _ _ _ _ _ _ _ _ _ _ _ _ E)
    as (n1 & v1 & l1 & Ex1 & El1 & T1 & Lg).
  destruct (draw_order_returned _ _ _ _ _ _ _ _ _ _ _ _ M)
    as (n2 & v2 & l2 & Ex2 & El2 & T2 & Lg').
  destruct (jdprocess_length _ _ _ _ _ _ _ _ _ _ _ _ E)
    as (m & Tm & _ & LX & H0).
  destruct (jdprocess_length _ _ _ _ _ _ _ _ _ _ _ _ M)
    as (m' & Tm' & _ & LX' & H0').
  subst xi lamb.
  injection Ex' as <-. injection El' as <-.
  injection Ex1 as <-. injection El1 as <-.
  injection Ex2 as <-. injection El2 as <-.
  rewrite T in T', T1, T2, Tm, Tm'.
  injection T' as T'. injection T1 as T1. injection T2 as T2.
  injection Tm as Tm. injection Tm' as Tm'.
  apply Nat2Z.inj in T', T1, T2, Tm, Tm'. subst n' n1 n2 m m'.
  split; [|split; congruence].
  destruct w1 as [g1 lg1], w2 as [g2 lg2]. cbn [gen log] in *.
  rewrite G, G', Lg, Lg'. reflexivity.
Qed.

(** *** The path does not look ahead *)

Lemma lookup_from_take {A} (l l' : list A) k i :
  take k l = take k l' -> i < k -> l !! i = l' !! i.
Proof.
  intros T Hi. rewrite <- (lookup_take_lt l k i Hi).
  rewrite <- (lookup_take_lt l' k i Hi). now rewrite T.
Qed.

(** Two paths that follow the same steps up to index [k], from the same
    start and the same generator, agree up to [k]. *)
Lemma paths_agree (upd1 upd2 : nat -> F -> F) v (J J' : list Z) n k
    (X1 X2 : list F) (G1 G2 : nat -> rng) :
  X1 !! 0 = X2 !! 0 -> G1 1 = G2 1 ->
  (forall i, 1 <= i < 1 + (n - 1) ->
     exists x y j,
       X1 !! (i - 1) = Some x /\ X1 !! i = Some y /\ J !! i = Some j
       /\ jump_rel v j (upd1 i x) y (G1 i) (G1 (i + 1))) ->
  (forall i, 1 <= i < 1 + (n - 1) ->
     exists x y j,
       X2 !! (i - 1) = Some x /\ X2 !! i = Some y /\ J' !! i = Some j
       /\ jump_rel v j (upd2 i x) y (G2 i) (G2 (i + 1))) ->
  (forall i x, 1 <= i < k -> upd1 i x = upd2 i x) ->
  (forall i, i < k -> J !! i = J' !! i) ->
  forall i, i < k -> i < n -> X1 !! i = X2 !! i /\ G1 (i + 1) = G2 (i + 1).
Proof.
  intros H0 HG R1 R2 Hu HJ. induction i as [|i IH]; intros Hk Hn.
  - auto.
  - destruct IH as [IX IG]; [lia|lia|].
    destruct (R1 (S i)) as (x & y & j & A & B & C & D); [lia|].
    destruct (R2 (S i)) as (x' & y' & j' & A' & B' & C' & D'); [lia|].
    replace (S i - 1) with i in A, A' by lia.
    replace (i + 1) with (S i) in IG by lia.
    rewrite A, A' in IX. injection IX as <-.
    rewrite (HJ (S i) Hk), C' in C. injection C as <-.
    rewrite (Hu (S i) x) in D by lia. rewrite IG in D.
    unfold jump_rel in D, D'. rewrite B, B'.
    destruct (0 <? j')%Z; destruct D as [-> ->], D' as [-> ->]; auto.
Qed.

(** X11. The path does not look ahead: what the integration block writes
    at the indices below [k] depends on the noise below [k] only.  Two runs
    from the same path and the same world, with noise arrays that agree on
    their first [k] entries, return paths that agree on their first [k]
    entries, for every solver. *)
Theorem path_is_causal
    delta_t a b v solver b_prime n k dw dw' dJ dJ' X w X1 w1 X2 w2 :
  callable a = true -> callable b = true ->
  (solver = "Milstein" -> callable b_prime = true) ->
  0 < n -> length X = n ->
  length dw = n -> length dw' = n -> length dJ = n -> length dJ' = n ->
  take k dw = take k dw' -> take k dJ = take k dJ' ->
  integrate delta_t a b (PyNum v) solver b_prime n dw dJ X w = (Ok X1, w1) ->
  integrate delta_t a b (PyNum v) solver b_prime n dw' dJ' X w
  = (Ok X2, w2) ->
  take k X1 = take k X2.
Proof.
  intros Ca Cb Cb' Ln LX Lw Lw' LJ LJ' Tw TJ E1 E2.
  assert (length X1 = n /\ length X2 = n
          /\ forall i, i < k -> i < n -> X1 !! i = X2 !! i) as (L1 & L2 & HA).
  { destruct (String.eqb_spec solver "Euler") as [->|NE].
    - rewrite integrate_euler in E1, E2. unfold py_range in E1, E2.
      apply (loop_path _
               (fun i x =>
                  euler_update delta_t a b x (default fzero (dw !! i)))
               v dJ n) in E1; auto; try lia.
      2:{ intros i X0 x j w0 Hr LX0 EX EJ.
          apply euler_step_outcome; auto; lia || congruence. }
      apply (loop_path _
               (fun i x =>
                  euler_update delta_t a b x (default fzero (dw' !! i)))
               v dJ' n) in E2; auto; try lia.
      2:{ intros i X0 x j w0 Hr LX0 EX EJ.
          apply euler_step_outcome; auto; lia || congruence. }
      destruct E1 as (L1 & K1 & _ & G1 & S1 & _ & R1).
      destruct E2 as (L2 & K2 & _ & G2 & S2 & _ & R2).
      split; [exact L1|]. split; [exact L2|]. intros i Hk Hn.
      apply (paths_agree
               (fun i x =>
                  euler_update delta_t a b x (default fzero (dw !! i)))
               (fun i x =>
                  euler_update delta_t a b x (default fzero (dw' !! i)))
               v dJ dJ' n k X1 X2 G1 G2);
        [| |exact R1|exact R2| | |exact Hk|exact Hn].
      + rewrite K1, K2 by lia. reflexivity.
      + congruence.
      + intros j x Hj. cbv beta.
        rewrite (lookup_from_take dw dw' k j Tw) by lia. reflexivity.
      + intros j Hj. now apply (lookup_from_take dJ dJ' k).
    - destruct (String.eqb_spec solver "Milstein") as [->|NM].
      + specialize (Cb' eq_refl).
        rewrite integrate_milstein in E1, E2. unfold py_range in E1, E2.
        apply (loop_path _
                 (fun i x =>
                    milstein_update delta_t a b b_prime x
                      (default fzero (dw !! i))
                      (milstein_term delta_t (default fzero (dw !! i))))
                 v dJ n) in E1; auto; try lia.
        2:{ intros i X0 x j w0 Hr LX0 EX EJ.
            apply milstein_step_outcome; auto; lia || congruence. }
        apply (loop_path _
                 (fun i x =>
                    milstein_update delta_t a b b_prime x
                      (default fzero (dw' !! i))
                      (milstein_term delta_t (default fzero (dw' !! i))))
                 v dJ' n) in E2; auto; try lia.
        2:{ intros i X0 x j w0 Hr LX0 EX EJ.
            apply milstein_step_outcome; auto; lia || congruence. }
        destruct E1 as (L1 & K1 & _ & G1 & S1 & _ & R1).
        destruct E2 as (L2 & K2 & _ & G2 & S2 & _ & R2).
        split; [exact L1|]. split; [exact L2|]. intros i Hk Hn.
        apply (paths_agree
                 (fun i x =>
                    milstein_update delta_t a b b_prime x
                      (default fzero (dw !! i))
                      (milstein_term delta_t (default fzero (dw !! i))))
                 (fun i x =>
                    milstein_update delta_t a b b_prime x
                      (default fzero (dw' !! i))
                      (milstein_term delta_t (default fzero (dw' !! i))))
                 v dJ dJ' n k X1 X2 G1 G2);
          [| |exact R1|exact R2| | |exact Hk|exact Hn].
        * rewrite K1, K2 by lia. reflexivity.
        * congruence.
        * intros j x Hj. cbv beta.
          rewrite (lookup_from_take dw dw' k j Tw) by lia. reflexivity.
        * intros j Hj. now apply (lookup_from_take dJ dJ' k).
      + rewrite integrate_other in E1, E2 by assumption.
        injection E1 as <- <-. injection E2 as <- <-. auto. }
  apply list_eq. intros i.
  destruct (decide (i < k)) as [Hk|Hk].
  - rewrite !lookup_take_lt by exact Hk.
    destruct (decide (i < n)) as [Hn|Hn]; [now apply HA|].
    rewrite !lookup_ge_None_2 by lia. reflexivity.
  - rewrite !lookup_take_ge by lia. reflexivity.
Qed.

End Further.

(** ** On binary64

    What the interface leaves open and IEEE-754 settles: a finite positive
    number divided by itself is exactly 1. *)

Module OnBinary64.
Import Binary64.

Lemma div_eucl_shift m :
  Z.div_eucl (Z.shiftl (Z.pos m) 53) (Z.pos m) = ((2 ^ 53)%Z, 0%Z).
Proof.
  rewrite Z.shiftl_mul_pow2 by lia.
  pose proof (Z.div_mul (2 ^ 53) (Z.pos m) ltac:(lia)) as Q.
  pose proof (Z.mod_mul (2 ^ 53) (Z.pos m) ltac:(lia)) as R.
  rewrite (Z.mul_comm (2 ^ 53)) in Q, R.
  unfold Z.div in Q. unfold Z.modulo in R.
  destruct (Z.div_eucl (Z.pos m * 2 ^ 53) (Z.pos m)) as [q r].
  now subst.
Qed.

(** The division of the specification, on equal finite operands: the
    mantissas cancel, whatever they are. *)
Lemma SFdiv_self m e :
  SFdiv prec emax (S754_finite false m e) (S754_finite false m e)
  = S754_finite false 4503599627370496 (-52).
Proof.
  unfold SFdiv, SFdiv_core_binary.
  rewrite !Z.sub_diag.
  change (Z.min (fexp prec emax 0) 0) with (-53)%Z.
  change (0 - -53)%Z with 53%Z.
  cbv iota beta.
  rewrite div_eucl_shift.
  unfold new_location, new_location_even, new_location_odd.
  change (0 =? 0)%Z with true. cbv iota.
  destruct (Z.even (Z.pos m)); reflexivity.
Qed.

Lemma positive_float x :
  PrimFloat.ltb 0 x = true ->
  Prim2SF x = S754_infinity false
  \/ exists m e, Prim2SF x = S754_finite false m e.
Proof.
  rewrite ltb_spec. change (Prim2SF 0) with (S754_zero false).
  destruct (Prim2SF x) as [s|s| |s m e]; cbn; try discriminate.
  - destruct s; [discriminate|]. now left.
  - destruct s; [discriminate|]. right. eauto.
Qed.

Lemma float_self_quotient x :
  PrimFloat.ltb 0 x = true -> isfinite x = true ->
  trunc (PrimFloat.div x x) = Ok 1%Z.
Proof.
  intros P I. unfold trunc. rewrite div_spec. unfold SF64div.
  destruct (positive_float x P) as [E|(m & e & E)].
  - unfold isfinite in I. rewrite E in I. discriminate.
  - rewrite E, SFdiv_self. reflexivity.
Qed.

Lemma int_self_quotient z :
  (0 < z)%Z -> float_of_quotient z z = 1%float.
Proof.
  intros P. unfold float_of_quotient.
  rewrite (proj2 (Z.ltb_ge z 0)) by lia. cbn [xorb].
  rewrite Z.abs_eq by lia.
  rewrite (proj2 (Z.eqb_neq z 0)) by lia.
  rewrite Z_mod_same_full, Z.div_same by lia. reflexivity.
Qed.

(** [int(T / T)] is 1 for every positive int and every finite positive
    float. *)
Lemma self_quotient (T : pynum) :
  num_gt0 T = true -> num_finite T = true ->
  ftrunc (num_truediv T T) = Ok 1%Z.
Proof.
  destruct T as [z|f]; intros P I.
  - change (trunc (float_of_quotient z z) = Ok 1%Z).
    rewrite int_self_quotient; [reflexivity|].
    now apply Z.ltb_lt in P.
  - now apply float_self_quotient.
Qed.

(** Rounding keeps the sign it is given. *)
Lemma binary_round_aux_positive mx ex lx :
  let r := binary_round_aux prec emax false mx ex lx in
  r = S754_nan \/ r = S754_zero false \/ r = S754_infinity false
  \/ exists m e, r = S754_finite false m e.
Proof.
  unfold binary_round_aux.
  destruct (shr_fexp prec emax mx ex lx) as [mrs' e'].
  destruct (shr_fexp prec emax _ e' loc_Exact) as [mrs'' e''].
  destruct (shr_m mrs'') as [|m|m]; cbv zeta; auto.
  destruct (e'' <=? emax - prec)%Z; eauto 6.
Qed.

Lemma positive_quotient x y :
  PrimFloat.ltb 0 x = true -> PrimFloat.ltb 0 y = true ->
  let q := Prim2SF (PrimFloat.div x y) in
  q = S754_nan \/ q = S754_zero false \/ q = S754_infinity false
  \/ exists m e, q = S754_finite false m e.
Proof.
  intros Px Py. cbv zeta. rewrite div_spec. unfold SF64div.
  destruct (positive_float x Px) as [Ex|(mx & ex & Ex)];
    destruct (positive_float y Py) as [Ey|(my & ey & Ey)];
    rewrite Ex, Ey; cbn [SFdiv xorb]; auto.
  destruct (SFdiv_core_binary prec emax (Z.pos mx) ex (Z.pos my) ey)
    as [[mz ez] lz].
  apply binary_round_aux_positive.
Qed.

Lemma trunc_nonnegative x :
  (Prim2SF x = S754_nan \/ Prim2SF x = S754_zero false
   \/ Prim2SF x = S754_infinity false
   \/ exists m e, Prim2SF x = S754_finite false m e) ->
  match trunc x with
  | Ok len => (0 <= len)%Z
  | Raise e => e = OverflowError \/ e = ValueError
  end.
Proof.
  unfold trunc. intros [E|[E|[E|(m & e & E)]]]; rewrite E; auto; [lia|].
  destruct (0 <=? e)%Z eqn:S.
  - apply Z.mul_nonneg_nonneg; [lia|]. apply Z.pow_nonneg. lia.
  - apply Z.leb_gt in S.
    apply Z.div_pos; [lia|]. apply Z.pow_pos_nonneg; lia.
Qed.

Section WithGenerator.
Context {rg : Generator}.

(** C8. A valid call with [time = delta_t = T], for a finite [T], returns a
    path of length exactly 1 that holds the initial condition (the given
    [init], or the variate drawn for it) and nothing else: [int(T / T)] is 1.
    The loop over the indices [1..N-1] does not run, whatever the solver:
    after the allocation the log holds the sampling phase only, the draw of
    the initial value if [init] is absent and the two blocks of size 1. *)
Theorem equal_time_and_step T a b xi l init solver b_prime w :
  passes_checks T T a b xi (PyNum l) solver b_prime = true ->
  num_finite T = true ->
  init_ok init = true ->
  normal_ok (np_sqrt T) = true ->
  poisson_ok (jump_rate l T) = true ->
  ftrunc (num_truediv T T) = Ok 1%Z
  /\ exists w',
      jdprocess T T a b xi (PyNum l) init solver b_prime w
      = (Ok [initial_condition T init (gen w)], w')
      /\ log w'
         = log w ++ [EvZeros 1]
           ++ (if is_None init then [EvNormal (np_sqrt T) (Some 1)] else [])
           ++ [EvNormal (np_sqrt T) (Some 1);
               EvPoisson (jump_rate l T) (Some 1)].
Proof.
  intros P Fi I Vn Vp.
  assert (ftrunc (num_truediv T T) = Ok 1%Z) as Tr.
  { apply self_quotient; [|exact Fi].
    unfold passes_checks in P. destruct (num_gt0 T); [reflexivity|].
    discriminate P. }
  split; [exact Tr|]. exists (sampled_world T l init 1 w).
  split; [now apply length_one_path|reflexivity].
Qed.

(** X10. With a positive float [time] and a positive float [delta_t] the
    length [int(time / delta_t)] is never negative, so [np.zeros] is never
    asked for a negative dimension: the quotient is a length of 0 or more,
    or it is infinite or NaN and the call fails with the [OverflowError] or
    [ValueError] of [int] before anything is allocated or drawn. *)
Theorem float_length_nonnegative
    (x y : float) a b xi lamb init solver b_prime w :
  passes_checks (Float x) (Float y) a b xi lamb solver b_prime = true ->
  match ftrunc (num_truediv (Float x) (Float y)) with
  | Ok len => (0 <= len)%Z
  | Raise e =>
      (e = OverflowError \/ e = ValueError)
      /\ jdprocess (Float x) (Float y) a b xi lamb init solver b_prime w
         = (Raise e, w)
  end.
Proof.
  intros P.
  assert (PrimFloat.ltb 0 x = true /\ PrimFloat.ltb 0 y = true) as [Px Py].
  { unfold passes_checks in P. cbn [num_gt0] in P.
    change (@fgt0 binary64 x) with (PrimFloat.ltb 0 x) in P.
    change (@fgt0 binary64 y) with (PrimFloat.ltb 0 y) in P.
    destruct (PrimFloat.ltb 0 x); [|discriminate P].
    destruct (PrimFloat.ltb 0 y); [|discriminate P]. auto. }
  pose proof (trunc_nonnegative _ (positive_quotient x y Px Py)) as N.
  change (@ftrunc binary64
            (@num_truediv binary64 (@Float binary64 x) (@Float binary64 y)))
    with (trunc (PrimFloat.div x y)).
  destruct (trunc (PrimFloat.div x y)) as [len|e] eqn:T; [exact N|].
  split; [exact N|]. unfold jdprocess.
  rewrite (bind_ok _ _ _ _ _ (entry_checks_pass _ _ _ _ _ _ _ _ w P)).
  apply bind_raise. unfold py_int.
  change (@ftrunc binary64
            (@num_truediv binary64 (@Float binary64 x) (@Float binary64 y)))
    with (trunc (PrimFloat.div x y)).
  now rewrite T.
Qed.

End WithGenerator.

End OnBinary64.

(** ** The model at work

    The theorems above at concrete calls, on binary64 and the deterministic
    generator. *)

Module Examples.
Import Binary64.

(** C2. The docstring promises, for [time > 0] and [delta_t > 0], a time
    series of size [int(time / delta_t)].  With [time = 1] and [delta_t = 2]
    every check passes, the length is [int(0.5) = 0], and the assignment of
    [X[0]] raises [IndexError]: no sequence of length 0 is returned.
    ([empty_path_fails] is the same for every call of length 0, and
    [jdprocess_length] gives the promised length to every call that
    returns.) *)
Theorem shorter_than_one_step_fails :
  passes_checks (Int 1) (Int 2) ou_drift unit_diffusion
    (PyNum (Int 0)) (PyNum (Int 0)) "Euler" PyNone = true
  /\ ftrunc (num_truediv (Int 1) (Int 2)) = Ok 0%Z
  /\ jdprocess (Int 1) (Int 2) ou_drift unit_diffusion
       (PyNum (Int 0)) (PyNum (Int 0)) (PyNum (Float 0%float)) "Euler" PyNone
       start
     = (Raise IndexError, {| gen := 0; log := [EvZeros 0] |}).
Proof. repeat split; reflexivity. Qed.

Lemma euler_recurrence_witness :
  jdprocess (Int 1) quarter ou_drift unit_diffusion
    (PyNum (Int 1)) (PyNum (Int 2)) (PyNum (Float 0%float)) "Euler" PyNone
    start
  = (Ok euler_path, loop_world)
  /\ exists (n : nat) (v l : pynum) (G : nat -> rng),
      PyNum (Int 1) = PyNum v /\ PyNum (Int 2) = PyNum l
      /\ ftrunc (num_truediv (Int 1) quarter) = Ok (Z.of_nat n)
      /\ length euler_path = n
      /\ euler_path !! 0
         = Some (initial_condition quarter (PyNum (Float 0%float))
                   (gen start))
      /\ G 1 = after_jumps quarter l (PyNum (Float 0%float)) n (gen start)
      /\ G n = gen loop_world
      /\ forall i, 1 <= i < n ->
         exists x wi j y,
           euler_path !! (i - 1) = Some x
           /\ wiener_increments quarter (PyNum (Float 0%float)) n (gen start)
                !! i = Some wi
           /\ jump_counts quarter l (PyNum (Float 0%float)) n (gen start)
                !! i = Some j
           /\ euler_path !! i = Some y
           /\ jump_rel v j
                (euler_update quarter ou_drift unit_diffusion x wi) y
                (G i) (G (i + 1)).
Proof.
  assert (jdprocess (Int 1) quarter ou_drift unit_diffusion
            (PyNum (Int 1)) (PyNum (Int 2)) (PyNum (Float 0%float)) "Euler"
            PyNone start
          = (Ok euler_path, loop_world)) as E by (reflexivity).
  split; [exact E|].
  exact (euler_recurrence _ _ _ _ _ _ _ _ _ _ _ E).
Defined.

Lemma precondition_violation_aborts_witness :
  (num_gt0 (Int (-1)) = false
   /\ exists msg,
       jdprocess (Int (-1)) quarter ou_drift unit_diffusion
         (PyNum (Int 1)) (PyNum (Int 2)) PyNone "Euler" PyNone start
       = (Raise (AssertionError msg), start))
  /\ (num_gt0 (Int 0) = false
      /\ exists msg,
          jdprocess (Int 1) (Int 0) ou_drift unit_diffusion
            (PyNum (Int 1)) (PyNum (Int 2)) PyNone "Euler" PyNone start
          = (Raise (AssertionError msg), start))
  /\ (callable (PyNum (Int 3)) = false
      /\ exists msg,
          jdprocess (Int 1) quarter (PyNum (Int 3)) unit_diffusion
            (PyNum (Int 1)) (PyNum (Int 2)) PyNone "Euler" PyNone start
          = (Raise (AssertionError msg), start))
  /\ (callable (PyStr "b") = false
      /\ exists msg,
          jdprocess (Int 1) quarter ou_drift (PyStr "b")
            (PyNum (Int 1)) (PyNum (Int 2)) PyNone "Euler" PyNone start
          = (Raise (AssertionError msg), start))
  /\ exists msg,
      jdprocess (Int 1) quarter ou_drift unit_diffusion
        (PyNum (Int 1)) (PyNum (Int 2)) PyNone "Milstein" PyNone start
      = (Raise (AssertionError msg), start).
Proof.
  split; [split; [reflexivity|]|].
  { apply precondition_violation_aborts. left. reflexivity. }
  split; [split; [reflexivity|]|].
  { apply precondition_violation_aborts. right. left. reflexivity. }
  split; [split; [reflexivity|]|].
  { apply precondition_violation_aborts. right. right. left. reflexivity. }
  split; [split; [reflexivity|]|].
  { apply precondition_violation_aborts. right. right. right. left.
    reflexivity. }
  apply precondition_violation_aborts. right. right. right. right.
  split; reflexivity.
Defined.


Lemma milstein_recurrence_witness :
  jdprocess (Int 1) quarter ou_drift linear_diffusion
    (PyNum (Int 1)) (PyNum (Int 2)) (PyNum (Float 1%float)) "Milstein"
    unit_derivative start
  = (Ok milstein_path, loop_world)
  /\ exists (n : nat) (v l : pynum) (G : nat -> rng) (dw_2 : list F),
      PyNum (Int 1) = PyNum v /\ PyNum (Int 2) = PyNum l
      /\ ftrunc (num_truediv (Int 1) quarter) = Ok (Z.of_nat n)
      /\ length milstein_path = n
      /\ dw_2
         = milstein_terms quarter
             (wiener_increments quarter (PyNum (Float 1%float)) n (gen start))
      /\ length dw_2 = n
      /\ (forall k wk,
            wiener_increments quarter (PyNum (Float 1%float)) n (gen start)
              !! k = Some wk ->
            dw_2 !! k = Some ((wk * wk - to_float quarter) * fhalf)%py)
      /\ milstein_path !! 0
         = Some (initial_condition quarter (PyNum (Float 1%float))
                   (gen start))
      /\ G 1 = after_jumps quarter l (PyNum (Float 1%float)) n (gen start)
      /\ G n = gen loop_world
      /\ forall i, 1 <= i < n ->
         exists x wi c j y,
           milstein_path !! (i - 1) = Some x
           /\ wiener_increments quarter (PyNum (Float 1%float)) n (gen start)
                !! i = Some wi
           /\ dw_2 !! i = Some c
           /\ jump_counts quarter l (PyNum (Float 1%float)) n (gen start)
                !! i = Some j
           /\ milstein_path !! i = Some y
           /\ jump_rel v j
                (milstein_update quarter ou_drift linear_diffusion
                   unit_derivative x wi c) y
                (G i) (G (i + 1)).
Proof.
  assert (jdprocess (Int 1) quarter ou_drift linear_diffusion
            (PyNum (Int 1)) (PyNum (Int 2)) (PyNum (Float 1%float))
            "Milstein" unit_derivative start
          = (Ok milstein_path, loop_world)) as E by (reflexivity).
  split; [exact E|].
  exact (milstein_recurrence _ _ _ _ _ _ _ _ _ _ _ E).
Defined.


(** C7, as the specification states it, fails: with [time = delta_t = 1] and
    [init = '0'] the assertion failure of [init] is raised in a world where
    the array of length 1 has already been allocated, not in the world of the
    call. *)
Lemma invalid_init_after_allocation :
  jdprocess (Int 1) (Int 1) ou_drift unit_diffusion
    (PyNum (Int 0)) (PyNum (Int 0)) (PyStr "0") "Euler" PyNone start
  = (Raise (AssertionError "'init' is not an int or float"),
     {| gen := 0; log := [EvZeros 1] |})
  /\ ~ (exists e,
          jdprocess (Int 1) (Int 1) ou_drift unit_diffusion
            (PyNum (Int 0)) (PyNum (Int 0)) (PyStr "0") "Euler" PyNone start
          = (Raise e, start)).
Proof.
  assert (jdprocess (Int 1) (Int 1) ou_drift unit_diffusion
            (PyNum (Int 0)) (PyNum (Int 0)) (PyStr "0") "Euler" PyNone start
          = (Raise (AssertionError "'init' is not an int or float"),
             {| gen := 0; log := [EvZeros 1] |})) as E
      by (reflexivity).
  split; [exact E|]. intros [e E']. rewrite E in E'. discriminate E'.
Qed.

(** C1, as the specification states it, fails: a callable object whose
    [__eq__] answers True to [None] can be supplied as [b_prime].  It is
    callable and is not [None]; with it both Milstein checks hold, the checks
    pass, and the call runs the Milstein loop and returns a path instead of
    failing. *)
Lemma callable_b_prime_passes_checks :
  callable unit_derivative = true
  /\ is_None unit_derivative = false
  /\ eq_None unit_derivative && callable unit_derivative = true
  /\ passes_checks (Int 1) quarter ou_drift linear_diffusion
       (PyNum (Int 1)) (PyNum (Int 2)) "Milstein" unit_derivative = true
  /\ jdprocess (Int 1) quarter ou_drift linear_diffusion
       (PyNum (Int 1)) (PyNum (Int 2)) (PyNum (Float 1%float)) "Milstein"
       unit_derivative start
     = (Ok milstein_path, loop_world)
  /\ ~ (exists e w',
          jdprocess (Int 1) quarter ou_drift linear_diffusion
            (PyNum (Int 1)) (PyNum (Int 2)) (PyNum (Float 1%float))
            "Milstein" unit_derivative start
          = (Raise e, w')).
Proof.
  assert (jdprocess (Int 1) quarter ou_drift linear_diffusion
            (PyNum (Int 1)) (PyNum (Int 2)) (PyNum (Float 1%float))
            "Milstein" unit_derivative start
          = (Ok milstein_path, loop_world)) as E by (reflexivity).
  do 4 (split; [reflexivity|]).
  split; [exact E|]. intros [e [w' E']]. rewrite E in E'. discriminate E'.
Qed.

(** A function as [b_prime] in a Milstein call: [b_prime == None] is False
    and the call is rejected at entry by the first Milstein check. *)
Lemma milstein_with_function_rejected_witness :
  eq_None zero_derivative = false
  /\ passes_checks (Int 1) quarter ou_drift unit_diffusion
       (PyNum (Int 1)) (PyNum (Int 2)) "Milstein" zero_derivative = false
  /\ exists msg,
      jdprocess (Int 1) quarter ou_drift unit_diffusion
        (PyNum (Int 1)) (PyNum (Int 2)) PyNone "Milstein" zero_derivative
        start
      = (Raise (AssertionError msg), start)
      /\ (num_gt0 (Int 1) = true -> num_gt0 quarter = true ->
          msg = "Introduce b'(x) to use the Milstein solver").
Proof.
  split; [reflexivity|].
  apply (milstein_with_function_rejected (Int 1) quarter ou_drift
           unit_diffusion (PyNum (Int 1)) (PyNum (Int 2)) PyNone
           zero_derivative start).
  reflexivity.
Defined.

Lemma invalid_init_rejected_witness :
  init_ok (PyBool true) = false
  /\ (exists e w',
        jdprocess (Int 1) quarter ou_drift unit_diffusion
          (PyNum (Int 1)) (PyNum (Int 2)) (PyBool true) "Euler" PyNone start
        = (Raise e, w')
        /\ gen w' = gen start
        /\ (log w' = log start
            \/ exists n, log w' = log start ++ [EvZeros n]))
  /\ (forall len,
        passes_checks (Int 1) quarter ou_drift unit_diffusion
          (PyNum (Int 1)) (PyNum (Int 2)) "Euler" PyNone = true ->
        ftrunc (num_truediv (Int 1) quarter) = Ok len -> (0 <= len)%Z ->
        jdprocess (Int 1) quarter ou_drift unit_diffusion
          (PyNum (Int 1)) (PyNum (Int 2)) (PyBool true) "Euler" PyNone start
        = (Raise (AssertionError "'init' is not an int or float"),
           emit (EvZeros (Z.to_nat len)) (gen start) start)).
Proof.
  split; [reflexivity|].
  apply invalid_init_rejected. reflexivity.
Defined.

Lemma equal_time_and_step_witness :
  passes_checks quarter quarter ou_drift unit_diffusion
    (PyNum (Int 1)) (PyNum (Int 2)) "Euler" PyNone = true
  /\ num_finite quarter = true
  /\ init_ok PyNone = true
  /\ normal_ok (np_sqrt quarter) = true
  /\ poisson_ok (jump_rate (Int 2) quarter) = true
  /\ ftrunc (num_truediv quarter quarter) = Ok 1%Z
  /\ exists w',
      jdprocess quarter quarter ou_drift unit_diffusion
        (PyNum (Int 1)) (PyNum (Int 2)) PyNone "Euler" PyNone start
      = (Ok [initial_condition quarter PyNone (gen start)], w')
      /\ log w'
         = log start ++ [EvZeros 1]
           ++ (if is_None PyNone then [EvNormal (np_sqrt quarter) (Some 1)]
               else [])
           ++ [EvNormal (np_sqrt quarter) (Some 1);
               EvPoisson (jump_rate (Int 2) quarter) (Some 1)].
Proof.
  do 5 (split; [reflexivity|]).
  apply (OnBinary64.equal_time_and_step quarter ou_drift unit_diffusion
           (PyNum (Int 1)) (Int 2) PyNone "Euler" PyNone start);
    reflexivity.
Defined.

Lemma unknown_solver_accepted_witness :
  "euler" <> "Euler" /\ "euler" <> "Milstein"
  /\ passes_checks (Int 1) quarter ou_drift unit_diffusion
       (PyNum (Int 1)) (PyNum (Int 2)) "euler" PyNone = true
  /\ ftrunc (num_truediv (Int 1) quarter) = Ok 4%Z /\ (1 <= 4)%Z
  /\ init_ok PyNone = true
  /\ normal_ok (np_sqrt quarter) = true
  /\ poisson_ok (jump_rate (Int 2) quarter) = true
  /\ exists w',
      jdprocess (Int 1) quarter ou_drift unit_diffusion
        (PyNum (Int 1)) (PyNum (Int 2)) PyNone "euler" PyNone start
      = (Ok (initial_condition quarter PyNone (gen start)
             :: replicate (Z.to_nat 4 - 1) fzero), w')
      /\ length (initial_condition quarter PyNone (gen start)
                 :: replicate (Z.to_nat 4 - 1) fzero) = Z.to_nat 4
      /\ log w'
         = log start ++ [EvZeros (Z.to_nat 4)]
           ++ (if is_None PyNone then [EvNormal (np_sqrt quarter) (Some 1)]
               else [])
           ++ [EvNormal (np_sqrt quarter) (Some (Z.to_nat 4));
               EvPoisson (jump_rate (Int 2) quarter) (Some (Z.to_nat 4))].
Proof.
  split; [discriminate|]. split; [discriminate|].
  repeat (split; [reflexivity|]).
  split; [lia|].
  repeat (split; [reflexivity|]).
  apply (unknown_solver_accepted (Int 1) quarter ou_drift unit_diffusion
           (PyNum (Int 1)) (Int 2) PyNone "euler" PyNone start 4%Z);
    try discriminate; try lia; reflexivity.
Defined.

Lemma numeric_arguments_exact_type_witness :
  (exists msg,
      jdprocess (Int 1) quarter ou_drift unit_diffusion
        np_half (PyNum (Int 2)) PyNone "Euler" PyNone start
      = (Raise (AssertionError msg), start))
  /\ (exists msg,
        jdprocess (Int 1) quarter ou_drift unit_diffusion
          (PyNum (Int 1)) (NpInt64 2) PyNone "Euler" PyNone start
        = (Raise (AssertionError msg), start))
  /\ jdprocess (Int 1) quarter ou_drift unit_diffusion
       (PyNum (Int 1)) (PyNum (Int 2)) np_zero "Euler" PyNone
       start
     = (Raise (AssertionError "'init' is not an int or float"),
        emit (EvZeros (Z.to_nat 4)) (gen start) start).
Proof.
  split; [|split].
  - apply (proj1 (proj2 (numeric_arguments_exact_type
                          (Int 1) quarter ou_drift unit_diffusion
                          np_half (PyNum (Int 2)) PyNone
                          "Euler" PyNone start))).
    left. reflexivity.
  - apply (proj1 (proj2 (numeric_arguments_exact_type
                          (Int 1) quarter ou_drift unit_diffusion
                          (PyNum (Int 1)) (NpInt64 2) PyNone
                          "Euler" PyNone start))).
    right. reflexivity.
  - apply (proj1 (proj2 (proj2 (numeric_arguments_exact_type
                                 (Int 1) quarter ou_drift unit_diffusion
                                 (PyNum (Int 1)) (PyNum (Int 2))
                                 np_zero "Euler" PyNone start))));
      try reflexivity; try lia; reflexivity.
Defined.


(** A function as [b_prime] with the Milstein solver: the first Milstein check
    fails, in the world of the call. *)
Example milstein_with_derivative_example :
  jdprocess (Int 1) quarter ou_drift unit_diffusion
    (PyNum (Int 1)) (PyNum (Int 2)) PyNone "Milstein" zero_derivative start
  = (Raise (AssertionError "Introduce b'(x) to use the Milstein solver"),
     start).
Proof. reflexivity. Qed.

(** The length is the truncation of the float quotient: with the floats
    that [0.3] and [0.1] denote, [time / delta_t] is just below 3 and the
    length is 2. *)
Example rounded_length_example :
  ftrunc (num_truediv (Float 0x1.3333333333333p-2%float)
            (Float 0x1.999999999999ap-4%float)) = Ok 2%Z.
Proof. reflexivity. Qed.

End Examples.

(** ** The further properties at work *)

Module FurtherExamples.
Import Binary64.

Lemma returns_path_of_length_witness :
  passes_checks (Int 1) quarter ou_drift unit_diffusion
    (PyNum (Int 1)) (PyNum (Int 2)) "Euler" PyNone = true
  /\ ftrunc (num_truediv (Int 1) quarter) = Ok 4%Z /\ (1 <= 4)%Z
  /\ init_ok PyNone = true
  /\ normal_ok (np_sqrt quarter) = true
  /\ poisson_ok (jump_rate (Int 2) quarter) = true
  /\ normal_ok (np_sqrt (Int 1)) = true
  /\ exists X w',
      jdprocess (Int 1) quarter ou_drift unit_diffusion
        (PyNum (Int 1)) (PyNum (Int 2)) PyNone "Euler" PyNone start
      = (Ok X, w')
      /\ length X = Z.to_nat 4
      /\ X !! 0 = Some (initial_condition quarter PyNone (gen start)).
Proof.
  split; [reflexivity|]. split; [reflexivity|]. split; [lia|].
  do 4 (split; [reflexivity|]).
  apply (returns_path_of_length (Int 1) quarter ou_drift unit_diffusion
           (Int 1) (Int 2) PyNone "Euler" PyNone start 4%Z);
    reflexivity || lia.
Defined.

Lemma zero_length_raises_witness :
  passes_checks (Int 1) (Int 2) ou_drift unit_diffusion
    (PyNum (Int 1)) (PyNum (Int 2)) "Euler" PyNone = true
  /\ ftrunc (num_truediv (Int 1) (Int 2)) = Ok 0%Z
  /\ init_ok PyNone = true
  /\ (is_None PyNone = true -> normal_ok (np_sqrt (Int 2)) = true)
  /\ jdprocess (Int 1) (Int 2) ou_drift unit_diffusion
       (PyNum (Int 1)) (PyNum (Int 2)) PyNone "Euler" PyNone start
     = (Raise IndexError,
        {| gen := after_initial (Int 2) PyNone (gen start);
           log := log start ++ [EvZeros 0]
                  ++ (if is_None PyNone
                      then [EvNormal (np_sqrt (Int 2)) (Some 1)]
                      else []) |}).
Proof.
  do 3 (split; [reflexivity|]). split; [intros _; reflexivity|].
  apply zero_length_raises; reflexivity.
Defined.

Lemma rejected_rate_fails_late_witness :
  passes_checks (Int 1) quarter ou_drift unit_diffusion
    (PyNum (Int 1)) (PyNum (Int (-2))) "Euler" PyNone = true
  /\ ftrunc (num_truediv (Int 1) quarter) = Ok 4%Z /\ (1 <= 4)%Z
  /\ init_ok PyNone = true
  /\ normal_ok (np_sqrt quarter) = true
  /\ poisson_ok (jump_rate (Int (-2)) quarter) = false
  /\ jdprocess (Int 1) quarter ou_drift unit_diffusion
       (PyNum (Int 1)) (PyNum (Int (-2))) PyNone "Euler" PyNone start
     = (Raise ValueError,
        {| gen := after_wiener quarter PyNone (Z.to_nat 4) (gen start);
           log := log start ++ [EvZeros (Z.to_nat 4)]
                  ++ (if is_None PyNone
                      then [EvNormal (np_sqrt quarter) (Some 1)] else [])
                  ++ [EvNormal (np_sqrt quarter) (Some (Z.to_nat 4))] |}).
Proof.
  split; [reflexivity|]. split; [reflexivity|]. split; [lia|].
  do 3 (split; [reflexivity|]).
  apply (rejected_rate_fails_late (Int 1) quarter ou_drift unit_diffusion
           (PyNum (Int 1)) (Int (-2)) PyNone "Euler" PyNone start 4%Z);
    reflexivity || lia.
Defined.

Lemma b_prime_unused_witness :
  "Euler" <> "Milstein"
  /\ jdprocess (Int 1) quarter ou_drift unit_diffusion
       (PyNum (Int 1)) (PyNum (Int 2)) PyNone "Euler" PyNone start
     = jdprocess (Int 1) quarter ou_drift unit_diffusion
         (PyNum (Int 1)) (PyNum (Int 2)) PyNone "Euler" (PyStr "b'") start.
Proof.
  split; [discriminate|]. apply b_prime_unused. discriminate.
Defined.

Lemma milstein_checks_witness :
  jdprocess (Int 1) quarter ou_drift unit_diffusion
    (PyNum (Int 1)) (PyNum (Int 2)) PyNone "Milstein" zero_derivative start
  = (Raise (AssertionError "Introduce b'(x) to use the Milstein solver"),
     start)
  /\ jdprocess (Int 1) quarter ou_drift unit_diffusion
       (PyNum (Int 1)) (PyNum (Int 2)) PyNone "Milstein" PyNone start
     = (Raise (AssertionError "b'(x) must be a function"), start).
Proof.
  split.
  - apply (proj1 (proj2 (milstein_checks (Int 1) quarter ou_drift
                           unit_diffusion (PyNum (Int 1)) (PyNum (Int 2))
                           PyNone zero_derivative start)));
      reflexivity.
  - apply (proj2 (proj2 (milstein_checks (Int 1) quarter ou_drift
                           unit_diffusion (PyNum (Int 1)) (PyNum (Int 2))
                           PyNone PyNone start)));
      reflexivity.
Defined.

Lemma noise_head_unused_witness :
  drop 1 noise = drop 1 noise' /\ drop 1 counts = drop 1 counts'
  /\ integrate quarter ou_drift unit_diffusion (PyNum (Int 1)) "Euler"
       PyNone 3 noise counts unit_path start
     = integrate quarter ou_drift unit_diffusion (PyNum (Int 1)) "Euler"
         PyNone 3 noise' counts' unit_path start.
Proof.
  do 2 (split; [reflexivity|]). apply noise_head_unused; reflexivity.
Defined.

Lemma euler_without_jumps_witness :
  passes_checks (Int 1) quarter ou_drift unit_diffusion
    (PyNum (Int (-1))) (PyNum (Int 0)) "Euler" PyNone = true
  /\ ftrunc (num_truediv (Int 1) quarter) = Ok 4%Z /\ (1 <= 4)%Z
  /\ init_ok init_one = true
  /\ normal_ok (np_sqrt quarter) = true
  /\ poisson_ok (jump_rate (Int 0) quarter) = true
  /\ forallb (fun j => (j <=? 0)%Z)
       (drop 1 (jump_counts quarter (Int 0) init_one
                  (Z.to_nat 4) (gen start))) = true
  /\ jdprocess (Int 1) quarter ou_drift unit_diffusion
       (PyNum (Int (-1))) (PyNum (Int 0)) init_one "Euler"
       PyNone start
     = (Ok (euler_reference quarter ou_drift unit_diffusion
              (initial_condition quarter init_one (gen start))
              (drop 1 (wiener_increments quarter init_one
                         (Z.to_nat 4) (gen start)))),
        sampled_world quarter (Int 0) init_one (Z.to_nat 4)
          start).
Proof.
  split; [reflexivity|]. split; [reflexivity|]. split; [lia|].
  do 4 (split; [reflexivity|]).
  apply (euler_without_jumps (Int 1) quarter ou_drift unit_diffusion
           (PyNum (Int (-1))) (Int 0) init_one PyNone start
           4%Z);
    reflexivity || lia.
Defined.

Lemma milstein_without_jumps_witness :
  passes_checks (Int 1) quarter ou_drift linear_diffusion
    (PyNum (Int (-1))) (PyNum (Int 0)) "Milstein" unit_derivative = true
  /\ ftrunc (num_truediv (Int 1) quarter) = Ok 4%Z /\ (1 <= 4)%Z
  /\ init_ok init_one = true
  /\ normal_ok (np_sqrt quarter) = true
  /\ poisson_ok (jump_rate (Int 0) quarter) = true
  /\ forallb (fun j => (j <=? 0)%Z)
       (drop 1 (jump_counts quarter (Int 0) init_one
                  (Z.to_nat 4) (gen start))) = true
  /\ jdprocess (Int 1) quarter ou_drift linear_diffusion
       (PyNum (Int (-1))) (PyNum (Int 0)) init_one
       "Milstein" unit_derivative start
     = (Ok (milstein_reference quarter ou_drift linear_diffusion
              unit_derivative
              (initial_condition quarter init_one (gen start))
              (drop 1 (wiener_increments quarter init_one
                         (Z.to_nat 4) (gen start)))),
        sampled_world quarter (Int 0) init_one (Z.to_nat 4)
          start).
Proof.
  split; [reflexivity|]. split; [reflexivity|]. split; [lia|].
  do 4 (split; [reflexivity|]).
  apply (milstein_without_jumps (Int 1) quarter ou_drift linear_diffusion
           (PyNum (Int (-1))) (Int 0) init_one
           unit_derivative start 4%Z);
    reflexivity || lia.
Defined.

Lemma solvers_share_the_stream_witness :
  jdprocess (Int 1) quarter ou_drift linear_diffusion
    (PyNum (Int 1)) (PyNum (Int 2)) init_one "Euler" PyNone
    start
  = (Ok euler_linear_path, loop_world)
  /\ jdprocess (Int 1) quarter ou_drift linear_diffusion
       (PyNum (Int 1)) (PyNum (Int 2)) init_one "Milstein"
       unit_derivative start
     = (Ok milstein_path, loop_world)
  /\ loop_world = loop_world
  /\ length euler_linear_path = length milstein_path
  /\ euler_linear_path !! 0 = milstein_path !! 0.
Proof.
  assert (jdprocess (Int 1) quarter ou_drift linear_diffusion
            (PyNum (Int 1)) (PyNum (Int 2)) init_one "Euler"
            PyNone start
          = (Ok euler_linear_path, loop_world)) as E by reflexivity.
  assert (jdprocess (Int 1) quarter ou_drift linear_diffusion
            (PyNum (Int 1)) (PyNum (Int 2)) init_one
            "Milstein" unit_derivative start
          = (Ok milstein_path, loop_world)) as M by reflexivity.
  split; [exact E|]. split; [exact M|].
  exact (solvers_share_the_stream _ _ _ _ _ _ _ _ _ _ _ _ _ _ _ _ E M).
Defined.

Lemma float_length_nonnegative_witness :
  passes_checks float_one quarter ou_drift unit_diffusion
    (PyNum (Int 1)) (PyNum (Int 2)) "Euler" PyNone = true
  /\ match ftrunc (num_truediv float_one quarter) with
     | Ok len => (0 <= len)%Z
     | Raise e =>
         (e = OverflowError \/ e = ValueError)
         /\ jdprocess float_one quarter ou_drift unit_diffusion
              (PyNum (Int 1)) (PyNum (Int 2)) PyNone "Euler" PyNone start
            = (Raise e, start)
     end.
Proof.
  split; [reflexivity|].
  apply (OnBinary64.float_length_nonnegative 1%float 0.25%float
           ou_drift unit_diffusion (PyNum (Int 1)) (PyNum (Int 2)) PyNone
           "Euler" PyNone start).
  reflexivity.
Defined.

Lemma path_is_causal_witness :
  callable ou_drift = true /\ callable unit_diffusion = true
  /\ ("Euler" = "Milstein" -> callable PyNone = true)
  /\ 0 < 3 /\ length unit_path = 3
  /\ length noise = 3 /\ length noise_late = 3
  /\ length counts = 3 /\ length counts_late = 3
  /\ take 2 noise = take 2 noise_late
  /\ take 2 counts = take 2 counts_late
  /\ integrate quarter ou_drift unit_diffusion (PyNum (Int 1)) "Euler"
       PyNone 3 noise counts unit_path start
     = (Ok jumped_path, jumped_world)
  /\ integrate quarter ou_drift unit_diffusion (PyNum (Int 1)) "Euler"
       PyNone 3 noise_late counts_late unit_path start
     = (Ok quiet_path, start)
  /\ take 2 jumped_path = take 2 quiet_path.
Proof.
  do 2 (split; [reflexivity|]). split; [discriminate|]. split; [lia|].
  do 9 (split; [reflexivity|]).
  apply (path_is_causal quarter ou_drift unit_diffusion (Int 1) "Euler"
           PyNone 3 2 noise noise_late counts counts_late unit_path start
           jumped_path jumped_world quiet_path start);
    reflexivity || lia || discriminate.
Defined.

End FurtherExamples.
